(** * Quarkdown for VS Code: the compilation pipeline

  A shallow embedding of the TypeScript sources of the compiler
  (QuarkdownParser.ts, QuarkdownCompiler.ts, ExecutionContext.ts,
  StandardLibrary.ts and the leaf renderers of QuarkdownRenderer.ts)
  together with the properties of the specification that concern them.

  Conventions of the embedding.
  - A JavaScript string is a [string]; every character stands for one
    code unit below 256.
  - [undefined] and [null] are [None] of an [option].
  - A [Map<string, T>] is a [gmap string T]; a plain object used as a
    record of named arguments is an association list in insertion order.
  - Mutable objects are threaded explicitly: a function that mutates the
    execution context takes it and returns the new one.
  - A JavaScript exception is the [Throw] outcome; a loop that does not
    end within the step budget is the [Diverge] outcome.
  - [async]/[await] is sequential composition. *)

From Stdlib Require Import ZArith Ascii String List Bool Lia.
From stdpp Require Import gmap strings list fin_maps.

Set Implicit Arguments.
Unset Strict Implicit.

(** ** JavaScript strings *)

Module JSString.

(** The double quote character, as a one-character string. *)
Definition dq : string := String "034"%char EmptyString.

(** [s.charAt(n)]: [None] stands for the empty string returned out of range. *)
Definition charAt (s : string) (n : nat) : option ascii := String.get n s.

Definition char_is (o : option ascii) (c : ascii) : bool :=
  match o with
  | Some d => Ascii.eqb d c
  | None => false
  end.

(** [s.slice(n)] *)
Fixpoint slice_from (n : nat) (s : string) : string :=
  match n, s with
  | O, _ => s
  | S n', String _ s' => slice_from n' s'
  | S _, EmptyString => EmptyString
  end.

(** [s.slice(a, b)] for non-negative [a] and [b]. *)
Definition slice (a b : nat) (s : string) : string :=
  String.substring a (b - a) s.

Definition in_range (lo hi : nat) (c : ascii) : bool :=
  let n := nat_of_ascii c in (lo <=? n)%nat && (n <=? hi)%nat.

Definition is_upper (c : ascii) : bool := in_range 65 90 c.
Definition is_lower (c : ascii) : bool := in_range 97 122 c.
Definition is_digit (c : ascii) : bool := in_range 48 57 c.

(** [[a-zA-Z_]] *)
Definition is_ident_start (c : ascii) : bool :=
  is_lower c || is_upper c || Ascii.eqb c "_"%char.

(** [[a-zA-Z0-9_]], which is also [\w] *)
Definition is_ident_char (c : ascii) : bool :=
  is_lower c || is_upper c || is_digit c || Ascii.eqb c "_"%char.

(** [\s] on code units below 256: tab, line feed, vertical tab, form feed,
    carriage return, space and the no-break space. *)
Definition is_space (c : ascii) : bool :=
  let n := nat_of_ascii c in
  in_range 9 13 c || (n =? 32)%nat || (n =? 160)%nat.

Fixpoint take_while (p : ascii -> bool) (s : string) : string :=
  match s with
  | String c s' => if p c then String c (take_while p s') else EmptyString
  | EmptyString => EmptyString
  end.

Fixpoint drop_while (p : ascii -> bool) (s : string) : string :=
  match s with
  | String c s' => if p c then drop_while p s' else s
  | EmptyString => EmptyString
  end.

(** The match of the anchored identifier pattern, a letter or underscore
    followed by any number of letters, digits and underscores: the
    captured identifier, [None] when there is no match. *)
Definition match_identifier (s : string) : option string :=
  match s with
  | String c s' =>
      if is_ident_start c then Some (String c (take_while is_ident_char s'))
      else None
  | EmptyString => None
  end.

(** [s.startsWith(p)] *)
Fixpoint startsWith (p s : string) : bool :=
  match p, s with
  | EmptyString, _ => true
  | String a p', String b s' => Ascii.eqb a b && startsWith p' s'
  | String _ _, EmptyString => false
  end.

(** [l.join(sep)] *)
Fixpoint join (sep : string) (l : list string) : string :=
  match l with
  | [] => EmptyString
  | [x] => x
  | x :: rest => x +:+ sep +:+ join sep rest
  end.

End JSString.
Import JSString.

(** ** Outcomes of a JavaScript computation *)

Inductive JSError : Type :=
| TypeError (message : string)
| ReferenceError (message : string)
| RangeError (message : string)
| Error (message : string).

Definition error_message (e : JSError) : string :=
match e with
| TypeError m | ReferenceError m | RangeError m | Error m => m
end.

Inductive Outcome (A : Type) : Type :=
| Normal (a : A)
| Throw (e : JSError)
| Diverge.
Arguments Normal {A} a.
Arguments Throw {A} e.
Arguments Diverge {A}.

Definition obind {A B} (o : Outcome A) (k : A -> Outcome B) : Outcome B :=
match o with
| Normal a => k a
| Throw e => Throw e
| Diverge => Diverge
end.

(** Reading a property of a reference that may be [undefined]. *)
Definition deref {A} (o : option A) (property : string) : Outcome A :=
match o with
| Some a => Normal a
| None =>
    Throw (TypeError ("Cannot read properties of undefined (reading '"
                      +:+ property +:+ "')"))
end.

(** ** The numbers and the string case mappings of the host

  The arithmetic of IEEE doubles, their parsing and printing, and the
  Unicode case mappings belong to the JavaScript engine, not to the
  repository. The model is parametric in them. *)

Class JSRuntime : Type := {
number : Type;
parseFloat : string -> number;
parseInt : string -> number;
isNaN : number -> bool;
(** [n === 0], which is true of both zeros and false of NaN *)
num_is_zero : number -> bool;
num_add : number -> number -> number;
num_mul : number -> number -> number;
Math_pow : number -> number -> number;
(** [a < b] *)
num_ltb : number -> number -> bool;
(** the double of a loop counter *)
num_of_nat : nat -> number;
(** [String(n)] *)
num_toString : number -> string;
(** [n.toFixed(d)], which throws a [RangeError] outside 0..100 *)
num_toFixed : number -> number -> Outcome string;
Math_PI : number;
Math_E : number;
toUpperCase : string -> string;
toLowerCase : string -> string
}.

Section Numbers.
Context {rt : JSRuntime}.

Definition num_zero : number := num_of_nat 0.
Definition num_one : number := num_of_nat 1.

(** [!!n] for a number: false for zero and NaN. *)
Definition num_truthy (n : number) : bool :=
  negb (num_is_zero n) && negb (isNaN n).

(** [x || d] where [x] is [number | undefined]. *)
Definition num_or (x : option number) (d : number) : number :=
  match x with
  | Some n => if num_truthy n then n else d
  | None => d
  end.

End Numbers.

(** ** The tree model (ast/ASTNodes.ts) *)

Record SourceLocation : Type := mkLocation {
  loc_line : nat;
  loc_column : nat;
  loc_offset : nat
}.

Section Tree.
Context {rt : JSRuntime}.

(** One constructor for each node kind that the parser, the standard
    library, the expander or a leaf renderer builds or inspects; the other
    kinds of ASTNodes.ts are [OtherNode], with their [type] tag and the two
    generic fields [content] and [children] of the base interface. Nodes
    built by the standard library and by the expander carry no location. *)
Inductive ASTNode : Type :=
| TextNode (content : string) (location : option SourceLocation)
| CodeNode (content : string) (language : option string) (inline : bool)
    (location : option SourceLocation)
| ParagraphNode (children : list ASTNode) (location : option SourceLocation)
| HeadingNode (level : number) (children : list ASTNode)
    (location : option SourceLocation)
| ListNode (ordered : bool) (children : list ASTNode)
    (location : option SourceLocation)
| ListItemNode (children : list ASTNode) (location : option SourceLocation)
| BlockquoteNode (quoteType : option string) (children : list ASTNode)
    (location : option SourceLocation)
| EmphasisNode (strong : bool) (children : list ASTNode)
    (location : option SourceLocation)
| LinkNode (url : string) (title : option string) (children : list ASTNode)
    (location : option SourceLocation)
| ImageNode (src : string) (alt title width height : option string)
    (location : option SourceLocation)
| FunctionCallNode (name : string) (args : list ASTNode)
    (namedArgs : list (string * ASTNode)) (body : list ASTNode)
    (location : option SourceLocation)
| VariableNode (name : string) (location : option SourceLocation)
| RowNode (alignment gap : option string) (children : list ASTNode)
| ColumnNode (crossAlignment gap : option string) (children : list ASTNode)
| GridNode (columns : option number) (gap : option string)
    (children : list ASTNode)
| CenterNode (children : list ASTNode)
| MathNode (content : string) (inline : bool)
    (location : option SourceLocation)
| OtherNode (type : string) (content : option string)
    (children : option (list ASTNode)).

(** The root: [{ type: 'document', children }]. *)
Record DocumentNode : Type := mkDocument {
  doc_children : list ASTNode
}.

(** [node.type] *)
Definition node_type (node : ASTNode) : string :=
  match node with
  | TextNode _ _ => "text"
  | CodeNode _ _ _ _ => "code"
  | ParagraphNode _ _ => "paragraph"
  | HeadingNode _ _ _ => "heading"
  | ListNode _ _ _ => "list"
  | ListItemNode _ _ => "list_item"
  | BlockquoteNode _ _ _ => "blockquote"
  | EmphasisNode _ _ _ => "emphasis"
  | LinkNode _ _ _ _ => "link"
  | ImageNode _ _ _ _ _ _ => "image"
  | FunctionCallNode _ _ _ _ _ => "function_call"
  | VariableNode _ _ => "variable"
  | RowNode _ _ _ => "row"
  | ColumnNode _ _ _ => "column"
  | GridNode _ _ _ => "grid"
  | CenterNode _ => "center"
  | MathNode _ _ _ => "math"
  | OtherNode t _ _ => t
  end.

(** [node.children], [None] when the node has no such property. *)
Definition node_children (node : ASTNode) : option (list ASTNode) :=
  match node with
  | ParagraphNode c _ | HeadingNode _ c _ | ListNode _ c _ | ListItemNode c _
  | BlockquoteNode _ c _ | EmphasisNode _ c _ | LinkNode _ _ c _
  | RowNode _ _ c | ColumnNode _ _ c | GridNode _ _ c | CenterNode c => Some c
  | OtherNode _ _ c => c
  | _ => None
  end.

(** [node.content] *)
Definition node_content (node : ASTNode) : option string :=
  match node with
  | TextNode c _ | CodeNode c _ _ _ | MathNode c _ _ => Some c
  | OtherNode _ c _ => c
  | _ => None
  end.

(** [{ ...node, children }] *)
Definition with_children (node : ASTNode) (cs : list ASTNode) : ASTNode :=
  match node with
  | ParagraphNode _ l => ParagraphNode cs l
  | HeadingNode lv _ l => HeadingNode lv cs l
  | ListNode o _ l => ListNode o cs l
  | ListItemNode _ l => ListItemNode cs l
  | BlockquoteNode q _ l => BlockquoteNode q cs l
  | EmphasisNode s _ l => EmphasisNode s cs l
  | LinkNode u t _ l => LinkNode u t cs l
  | RowNode a g _ => RowNode a g cs
  | ColumnNode a g _ => ColumnNode a g cs
  | GridNode n g _ => GridNode n g cs
  | CenterNode _ => CenterNode cs
  | OtherNode t c _ => OtherNode t c (Some cs)
  | other => other
  end.

End Tree.

(** ** The parser (QuarkdownParser.ts) *)

Module Parser.

(** *** markdown-it's side: tokens, inline state, rule chain

    Of markdown-it's [Token] the fields that the repository reads or writes. *)
Record Token : Type := mkToken {
  tok_type : string;
  tok_tag : string;
  tok_nesting : Z;
  tok_attrs : list (string * string);
  tok_map : option (nat * nat);
  tok_content : string;
  tok_markup : string;
  tok_info : string
}.

(** [token.attrGet(name)] *)
Fixpoint attrGet (attrs : list (string * string)) (name : string)
  : option string :=
  match attrs with
  | [] => None
  | (k, v) :: rest => if String.eqb k name then Some v else attrGet rest name
  end.

(** Of markdown-it's [StateInline] the fields that the rules use. *)
Record StateInline : Type := mkState {
  st_src : string;
  st_pos : nat;
  st_posMax : nat;
  st_line : nat;
  st_tokens : list Token
}.

(** [state.push(...)] followed by the assignments to the new token. *)
Definition state_push (state : StateInline) (token : Token) : StateInline :=
  {| st_src := st_src state; st_pos := st_pos state;
     st_posMax := st_posMax state; st_line := st_line state;
     st_tokens := st_tokens state ++ [token] |}.

(** [state.pos = pos] *)
Definition state_set_pos (state : StateInline) (pos : nat) : StateInline :=
  {| st_src := st_src state; st_pos := pos;
     st_posMax := st_posMax state; st_line := st_line state;
     st_tokens := st_tokens state |}.

(** An inline rule: [(state, silent) => boolean], mutating the state. *)
Definition Rule : Type := StateInline -> bool -> bool * StateInline.

(** *** The four rules of the repository *)

Definition parseFunctionCall (state : StateInline) (silent : bool)
  : bool * StateInline :=
  let start := st_pos state in
  if negb (char_is (charAt (st_src state) start) ".") then (false, state)
  else
    let pos := start + 1 in
    match match_identifier (slice_from pos (st_src state)) with
    | None => (false, state)
    | Some functionName =>
        let pos := pos + String.length functionName in
        let state :=
          if silent then state
          else state_push state
                 {| tok_type := "quarkdown_function_open"; tok_tag := "";
                    tok_nesting := 0; tok_attrs := [];
                    tok_map := Some (st_line state, st_line state);
                    tok_content := ""; tok_markup := ".";
                    tok_info := functionName |} in
        (true, state_set_pos state pos)
    end.

Definition parseVariable (state : StateInline) (silent : bool)
  : bool * StateInline :=
  let start := st_pos state in
  if negb (char_is (charAt (st_src state) start) ".") then (false, state)
  else
    let pos := start + 1 in
    match match_identifier (slice_from pos (st_src state)) with
    | None => (false, state)
    | Some variableName =>
        let pos := pos + String.length variableName in
        if char_is (charAt (st_src state) pos) "{"
           || char_is (charAt (st_src state) pos) " "
        then (false, state)
        else
          let state :=
            if silent then state
            else state_push state
                   {| tok_type := "quarkdown_variable"; tok_tag := "";
                      tok_nesting := 0; tok_attrs := [];
                      tok_map := Some (st_line state, st_line state);
                      tok_content := variableName; tok_markup := "";
                      tok_info := "" |} in
          (true, state_set_pos state pos)
    end.

(** The search for the closing marker of a math span: the [while] loop of
    [parseMath], which runs at most [posMax - pos] times. The result is the
    position after the closing marker, when there is one. *)
Fixpoint find_math_close (steps : nat) (src : string) (isDisplay : bool)
  (posMax pos : nat) : option nat :=
  match steps with
  | O => None
  | S steps' =>
      if (pos <? posMax)%nat then
        if char_is (charAt src pos) "$" then
          if isDisplay && char_is (charAt src (pos + 1)) "$" then Some (pos + 2)
          else if negb isDisplay then Some (pos + 1)
          else find_math_close steps' src isDisplay posMax (pos + 1)
        else find_math_close steps' src isDisplay posMax (pos + 1)
      else None
  end.

Definition parseMath (state : StateInline) (silent : bool)
  : bool * StateInline :=
  let start := st_pos state in
  if negb (char_is (charAt (st_src state) start) "$") then (false, state)
  else
    let isDisplay := char_is (charAt (st_src state) (start + 1)) "$" in
    let markerLen := if isDisplay then 2 else 1 in
    let pos := start + markerLen in
    match find_math_close (st_posMax state - pos) (st_src state) isDisplay
            (st_posMax state) pos with
    | None => (false, state)
    | Some pos =>
        let state :=
          if silent then state
          else state_push state
                 {| tok_type := "quarkdown_math"; tok_tag := "";
                    tok_nesting := 0; tok_attrs := []; tok_map := None;
                    tok_content :=
                      slice (start + markerLen) (pos - markerLen)
                        (st_src state);
                    tok_markup := if isDisplay then "$$" else "$";
                    tok_info := if isDisplay then "display" else "inline" |} in
        (true, state_set_pos state pos)
    end.

(** The scan for the end of the dimensions of an enhanced image: the
    [while] loop of [parseEnhancedImage]. *)
Fixpoint find_dimensions_end (steps : nat) (src : string) (max pos : nat)
  : nat :=
  match steps with
  | O => pos
  | S steps' =>
      if (pos <? max)%nat && negb (char_is (charAt src pos) ")") then
        let pos := if char_is (charAt src pos) "\" then pos + 1 else pos in
        find_dimensions_end steps' src max (pos + 1)
      else pos
  end.

(** The rule accepts without moving [state.pos], as the source does. *)
Definition parseEnhancedImage (state : StateInline) (silent : bool)
  : bool * StateInline :=
  let start := st_pos state in
  let max := st_posMax state in
  if negb (char_is (charAt (st_src state) start) "!")
     || negb (char_is (charAt (st_src state) (start + 1)) "(")
  then (false, state)
  else
    let pos := find_dimensions_end (max - (start + 2)) (st_src state) max
                 (start + 2) in
    if (max <=? pos)%nat then (false, state)
    else
      let dimensions := slice (start + 2) pos (st_src state) in
      let pos := pos + 1 in
      if negb (char_is (charAt (st_src state) pos) "[") then (false, state)
      else
        let state :=
          if silent then state
          else state_push state
                 {| tok_type := "quarkdown_enhanced_image"; tok_tag := "";
                    tok_nesting := 0; tok_attrs := [];
                    tok_map := Some (st_line state, st_line state);
                    tok_content := ""; tok_markup := "";
                    tok_info := dimensions |} in
        (true, state).

(** *** The rule chain

    [ruler.before(beforeName, ruleName, fn)] inserts the rule in front of
    the named one and throws when there is no rule of that name. *)
Fixpoint ruler_before (beforeName ruleName : string) (fn : Rule)
  (rules : list (string * Rule)) : option (list (string * Rule)) :=
  match rules with
  | [] => None
  | (n, r) :: rest =>
      if String.eqb n beforeName then Some ((ruleName, fn) :: (n, r) :: rest)
      else
        match ruler_before beforeName ruleName fn rest with
        | Some rest' => Some ((n, r) :: rest')
        | None => None
        end
  end.

(** The names of markdown-it's inline rules, in the order of its chain;
    [builtin] gives the rule of each name. *)
Definition markdown_it_inline_rules (builtin : string -> Rule)
  : list (string * Rule) :=
  List.map (fun n => (n, builtin n))
    ["text"; "linkify"; "newline"; "escape"; "backticks"; "strikethrough";
     "emphasis"; "link"; "image"; "autolink"; "html_inline"; "entity"].

Definition setupQuarkdownRules (rules : list (string * Rule))
  : option (list (string * Rule)) :=
  match ruler_before "text" "quarkdown_function" parseFunctionCall rules with
  | None => None
  | Some rules =>
      match ruler_before "text" "quarkdown_variable" parseVariable rules with
      | None => None
      | Some rules =>
          match ruler_before "text" "quarkdown_math" parseMath rules with
          | None => None
          | Some rules =>
              ruler_before "image" "quarkdown_image" parseEnhancedImage rules
          end
      end
  end.

(** One step of markdown-it's inline tokenizer: the rules are tried in the
    order of the chain and the first one that accepts ends the step. *)
Fixpoint inline_step (rules : list (string * Rule)) (state : StateInline)
  : bool * StateInline :=
  match rules with
  | [] => (false, state)
  | (_, rule) :: rest =>
      let '(ok, state) := rule state false in
      if ok then (true, state) else inline_step rest state
  end.

(** The kind of the token that the tokenizer makes at the start of [src]. *)
Definition classify (builtin : string -> Rule) (src : string)
  : option string :=
  match setupQuarkdownRules (markdown_it_inline_rules builtin) with
  | None => None
  | Some rules =>
      let state := {| st_src := src; st_pos := 0;
                      st_posMax := String.length src; st_line := 0;
                      st_tokens := [] |} in
      let '(ok, state) := inline_step rules state in
      if ok then option_map tok_type (last (st_tokens state)) else None
  end.

(** *** The textual pre-pass *)

(** One match of the call pattern of [preprocessFunctionCalls] at the start
    of [s]: a dot, an identifier, white space, an opening brace, any
    characters but a closing brace, and a closing brace. The result is the
    name, the text between the braces and the length of the match. *)
Definition match_function_call (s : string)
  : option (string * string * nat) :=
  match s with
  | String "." s1 =>
      match match_identifier s1 with
      | None => None
      | Some funcName =>
          let s2 := slice_from (String.length funcName) s1 in
          let spaces := take_while is_space s2 in
          match slice_from (String.length spaces) s2 with
          | String "{" s3 =>
              let args := take_while (fun c => negb (Ascii.eqb c "}")) s3 in
              match slice_from (String.length args) s3 with
              | String "}" _ =>
                  Some (funcName, args,
                        1 + String.length funcName + String.length spaces
                        + 1 + String.length args + 1)
              | _ => None
              end
          | _ => None
          end
      end
  | _ => None
  end.

(** The global replacement, left to right; [skip] counts the characters of
    the current match that are still to be passed over. *)
Fixpoint replace_function_calls (skip : nat) (s : string) : string :=
  match s with
  | EmptyString => EmptyString
  | String c s' =>
      match skip with
      | S k => replace_function_calls k s'
      | O =>
          match match_function_call s with
          | Some (funcName, args, len) =>
              "{{FUNCTION:" +:+ funcName +:+ ":" +:+ args +:+ "}}"
              +:+ replace_function_calls (len - 1) s'
          | None => String c (replace_function_calls 0 s')
          end
      end
  end.

Definition preprocessFunctionCalls (source : string) : string :=
  replace_function_calls 0 source.

Definition is_line_terminator (c : ascii) : bool :=
  Ascii.eqb c "010" || Ascii.eqb c "013".

(** One match of the typed-blockquote pattern at the start of [s], which is
    at the start of a line: a closing angle bracket, white space, one of the
    four labels, a colon and white space. The result is the label and the
    length of the match. *)
Definition match_quote_type (s : string) : option (string * nat) :=
  match s with
  | String ">" s1 =>
      let spaces := take_while is_space s1 in
      let s2 := slice_from (String.length spaces) s1 in
      let label :=
        if startsWith "Note:" s2 then Some "Note"
        else if startsWith "Tip:" s2 then Some "Tip"
        else if startsWith "Warning:" s2 then Some "Warning"
        else if startsWith "Info:" s2 then Some "Info"
        else None in
      match label with
      | None => None
      | Some type =>
          let s3 := slice_from (String.length type + 1) s2 in
          let trailing := take_while is_space s3 in
          Some (type, 1 + String.length spaces + String.length type + 1
                      + String.length trailing)
      end
  | _ => None
  end.

Section Passes.
Context {rt : JSRuntime}.

(** The global multi-line replacement; [bol] tells whether the position is
    at the start of the input or follows a line terminator. *)
Fixpoint replace_quote_types (bol : bool) (skip : nat) (s : string)
  : string :=
  match s with
  | EmptyString => EmptyString
  | String c s' =>
      match skip with
      | S k => replace_quote_types (is_line_terminator c) k s'
      | O =>
          match (if bol then match_quote_type s else None) with
          | Some (type, len) =>
              "> [!" +:+ toUpperCase type +:+ "]" +:+ String "010" "> "
              +:+ replace_quote_types (is_line_terminator c) (len - 1) s'
          | None =>
              String c (replace_quote_types (is_line_terminator c) 0 s')
          end
      end
  end.

Definition preprocessQuarkdownSyntax (source : string) : string :=
  let processed := source in
  let processed := preprocessFunctionCalls processed in
  let processed := replace_quote_types true 0 processed in
  processed.

(** *** From tokens to the tree *)

Inductive ParseErrorType : Type := syntax | semantic.

Record ParseError : Type := mkParseError {
  pe_message : string;
  pe_line : option number;
  pe_column : option number;
  pe_type : ParseErrorType
}.

Record ParseResult : Type := mkParseResult {
  ast : DocumentNode;
  errors : list ParseError
}.

(** [x || undefined] for a string *)
Definition nonempty (s : string) : option string :=
  if String.eqb s "" then None else Some s.

(** [x || ''] for a string that may be [null] *)
Definition or_empty (o : option string) : string :=
  match o with Some s => s | None => "" end.

(** [x || undefined] for a string that may be [null] *)
Definition or_undefined (o : option string) : option string :=
  match o with Some s => nonempty s | None => None end.

Definition token_location (token : Token) : SourceLocation :=
  {| loc_line := match tok_map token with Some (l, _) => l | None => 0 end;
     loc_column := 0; loc_offset := 0 |}.

(** The [errors] array is passed in and handed back, as the source passes
    it by reference. *)
Definition parseFunctionCallToken (token : Token) (errors : list ParseError)
  : ASTNode * list ParseError :=
  let functionName := tok_info token in
  (FunctionCallNode functionName [] [] [] (Some (token_location token)),
   errors).

Definition parseImageToken (token : Token) : ASTNode :=
  let src := or_empty (attrGet (tok_attrs token) "src") in
  let alt := tok_content token in
  let title := or_undefined (attrGet (tok_attrs token) "title") in
  ImageNode src (Some alt) title None None (Some (token_location token)).

Definition tokenToASTNode (token : Token) (errors : list ParseError)
  : option ASTNode * list ParseError :=
  let location := Some (token_location token) in
  let type := tok_type token in
  if String.eqb type "paragraph_open" then (None, errors)
  else if String.eqb type "paragraph_close" then (None, errors)
  else if String.eqb type "heading_open" then
    (Some (HeadingNode (parseInt (slice_from 1 (tok_tag token))) [] location),
     errors)
  else if String.eqb type "text" then
    (Some (TextNode (tok_content token) location), errors)
  else if String.eqb type "code_inline" then
    (Some (CodeNode (tok_content token) None true location), errors)
  else if String.eqb type "code_block" || String.eqb type "fence" then
    (Some (CodeNode (tok_content token) (nonempty (tok_info token)) false
             location), errors)
  else if String.eqb type "quarkdown_function_open" then
    let '(node, errors) := parseFunctionCallToken token errors in
    (Some node, errors)
  else if String.eqb type "quarkdown_variable" then
    (Some (VariableNode (tok_content token) location), errors)
  else if String.eqb type "quarkdown_math" then
    (Some (MathNode (tok_content token) (String.eqb (tok_info token) "inline")
             location), errors)
  else if String.eqb type "image" then (Some (parseImageToken token), errors)
  else if String.eqb type "link_open" then
    (Some (LinkNode (or_empty (attrGet (tok_attrs token) "href"))
             (or_undefined (attrGet (tok_attrs token) "title")) [] location),
     errors)
  else if String.eqb type "strong_open" || String.eqb type "em_open" then
    (Some (EmphasisNode (String.eqb type "strong_open") [] location), errors)
  else if negb (String.eqb (tok_content token) "") then
    (Some (TextNode (tok_content token) location), errors)
  else (None, errors).

(** The loop of [tokensToAST]: [children] is the array under construction. *)
Fixpoint tokensToAST_loop (tokens : list Token) (children : list ASTNode)
  (errors : list ParseError) : list ASTNode * list ParseError :=
  match tokens with
  | [] => (children, errors)
  | token :: rest =>
      let '(node, errors) := tokenToASTNode token errors in
      match node with
      | Some node => tokensToAST_loop rest (children ++ [node]) errors
      | None => tokensToAST_loop rest children errors
      end
  end.

Definition tokensToAST (tokens : list Token) (errors : list ParseError)
  : DocumentNode * list ParseError :=
  let '(children, errors) := tokensToAST_loop tokens [] errors in
  ({| doc_children := children |}, errors).

(** *** [parse]

    [md_parse] is [this.md.parse(preprocessed, {})] of markdown-it, with
    the rules of the repository installed: it returns the block tokens or
    throws. *)
Variable md_parse : string -> JSError + list Token.

(** The body of the [try] block, with the [errors] array as it stands when
    the block is left. *)
Definition parse_try (source : string) (errors : list ParseError)
  : (JSError + DocumentNode) * list ParseError :=
  let preprocessed := preprocessQuarkdownSyntax source in
  match md_parse preprocessed with
  | inl error => (inl error, errors)
  | inr tokens =>
      let '(ast, errors) := tokensToAST tokens errors in
      (inr ast, errors)
  end.

Definition parse (source : string) : ParseResult :=
  let errors := [] in
  match parse_try source errors with
  | (inr ast, errors) => {| ast := ast; errors := errors |}
  | (inl error, errors) =>
      let errors :=
        errors ++ [ {| pe_message := "Parse error: " +:+ error_message error;
                       pe_line := None; pe_column := None;
                       pe_type := syntax |} ] in
      {| ast := {| doc_children := [] |}; errors := errors |}
  end.

End Passes.

End Parser.

(** ** The host of the compiler

    The clock, [JSON.stringify], markdown-it's [parse] with the rules of
    the repository installed, and [QuarkdownRenderer.render]; the leaf
    renderers of the latter are modelled on their own below. *)

Record RenderOptions : Type := mkRenderOptions {
  ro_doctype : option string;
  ro_theme : option string;
  ro_outputFormat : option string;
  ro_includeStyles : option bool;
  ro_minify : option bool
}.

Class Host {rt : JSRuntime} : Type := {
  Date : Type;
  (** [new Date()] and the fields read from it *)
  new_Date : Date;
  toLocaleDateString : string;
  toLocaleString : string;
  getFullYear : number;
  getMonth : number;
  getDate : number;
  JSON_stringify : ASTNode -> string;
  md_parse : string -> JSError + list Parser.Token;
  render : DocumentNode -> RenderOptions -> Outcome string
}.

(** ** The execution context (ExecutionContext.ts) *)

Section Pipeline.
Context {rt : JSRuntime} {host : Host}.

(** The loosely typed values of variables and metadata. *)
Inductive JSValue : Type :=
| VUndefined
| VBoolean (b : bool)
| VNumber (n : number)
| VString (s : string).

(** [!!value] *)
Definition js_truthy (value : JSValue) : bool :=
  match value with
  | VUndefined => false
  | VBoolean b => b
  | VNumber n => num_truthy n
  | VString s => negb (String.eqb s "")
  end.

(** [String(value)] *)
Definition js_String (value : JSValue) : string :=
  match value with
  | VUndefined => "undefined"
  | VBoolean true => "true"
  | VBoolean false => "false"
  | VNumber n => num_toString n
  | VString s => s
  end.

Record UserDefinedFunction : Type := mkUserFunction {
  udf_name : string;
  udf_parameters : list string;
  udf_namedParameters : option (list string);
  udf_body : list ASTNode
}.

Inductive WarningType : Type := deprecation | performance | style.

Record CompileWarning : Type := mkWarning {
  cw_message : string;
  cw_line : option number;
  cw_column : option number;
  cw_type : WarningType
}.

Record CompileOptions : Type := mkOptions {
  opt_doctype : option string;
  opt_theme : option string;
  opt_outputFormat : option string;
  opt_strict : option bool;
  opt_includePaths : option (list string)
}.

(** The fields of the class. [scopeStack] is in the order of the array: the
    current scope is the last element. The reference to the standard
    library is not a field here: its table is the constant [functions]
    below. *)
Record ExecutionContext : Type := mkContext {
  variables : gmap string JSValue;
  metadata : gmap string JSValue;
  userFunctions : gmap string UserDefinedFunction;
  warnings : list CompileWarning;
  namedArgs : list (string * ASTNode);
  options : CompileOptions;
  scopeStack : list (gmap string JSValue)
}.

Definition set_variables (ctx : ExecutionContext) (v : gmap string JSValue)
  : ExecutionContext :=
  {| variables := v; metadata := metadata ctx;
     userFunctions := userFunctions ctx; warnings := warnings ctx;
     namedArgs := namedArgs ctx; options := options ctx;
     scopeStack := scopeStack ctx |}.

Definition set_metadata (ctx : ExecutionContext) (m : gmap string JSValue)
  : ExecutionContext :=
  {| variables := variables ctx; metadata := m;
     userFunctions := userFunctions ctx; warnings := warnings ctx;
     namedArgs := namedArgs ctx; options := options ctx;
     scopeStack := scopeStack ctx |}.

Definition set_userFunctions (ctx : ExecutionContext)
  (f : gmap string UserDefinedFunction) : ExecutionContext :=
  {| variables := variables ctx; metadata := metadata ctx;
     userFunctions := f; warnings := warnings ctx;
     namedArgs := namedArgs ctx; options := options ctx;
     scopeStack := scopeStack ctx |}.

Definition set_warnings (ctx : ExecutionContext) (w : list CompileWarning)
  : ExecutionContext :=
  {| variables := variables ctx; metadata := metadata ctx;
     userFunctions := userFunctions ctx; warnings := w;
     namedArgs := namedArgs ctx; options := options ctx;
     scopeStack := scopeStack ctx |}.

Definition set_scopeStack (ctx : ExecutionContext)
  (s : list (gmap string JSValue)) : ExecutionContext :=
  {| variables := variables ctx; metadata := metadata ctx;
     userFunctions := userFunctions ctx; warnings := warnings ctx;
     namedArgs := namedArgs ctx; options := options ctx;
     scopeStack := s |}.

Definition initializeBuiltinVariables (v : gmap string JSValue)
  : gmap string JSValue :=
  let v := <["pi" := VNumber Math_PI]> v in
  let v := <["e" := VNumber Math_E]> v in
  let v := <["today" := VString toLocaleDateString]> v in
  let v := <["now" := VString toLocaleString]> v in
  let v := <["year" := VNumber getFullYear]> v in
  let v := <["month" := VNumber (num_add getMonth num_one)]> v in
  let v := <["day" := VNumber getDate]> v in
  v.

(** [new ExecutionContext(stdlib, options)] *)
Definition new_ExecutionContext (options : CompileOptions)
  : ExecutionContext :=
  {| variables := initializeBuiltinVariables ∅; metadata := ∅;
     userFunctions := ∅; warnings := []; namedArgs := [];
     options := options; scopeStack := [] |}.

Definition setVariable (name : string) (value : JSValue)
  (ctx : ExecutionContext) : ExecutionContext :=
  set_variables ctx (<[name := value]> (variables ctx)).

(** [map.get(name)], with [undefined] for a missing key *)
Definition map_get (m : gmap string JSValue) (name : string) : JSValue :=
  match m !! name with
  | Some v => v
  | None => VUndefined
  end.

(** [map.has(name)] *)
Definition map_has {V} (m : gmap string V) (name : string) : bool :=
  match m !! name with
  | Some _ => true
  | None => false
  end.

Definition getVariable (name : string) (ctx : ExecutionContext) : JSValue :=
  match last (scopeStack ctx) with
  | Some currentScope =>
      if map_has currentScope name then map_get currentScope name
      else map_get (variables ctx) name
  | None => map_get (variables ctx) name
  end.

Definition hasVariable (name : string) (ctx : ExecutionContext) : bool :=
  match last (scopeStack ctx) with
  | Some currentScope =>
      if map_has currentScope name then true
      else map_has (variables ctx) name
  | None => map_has (variables ctx) name
  end.

Definition deleteVariable (name : string) (ctx : ExecutionContext)
  : ExecutionContext :=
  set_variables ctx (delete name (variables ctx)).

Definition pushScope (ctx : ExecutionContext) : ExecutionContext :=
  set_scopeStack ctx (scopeStack ctx ++ [∅]).

Definition popScope (ctx : ExecutionContext) : ExecutionContext :=
  set_scopeStack ctx (removelast (scopeStack ctx)).

Definition setScopedVariable (name : string) (value : JSValue)
  (ctx : ExecutionContext) : ExecutionContext :=
  match last (scopeStack ctx) with
  | Some currentScope =>
      set_scopeStack ctx
        (removelast (scopeStack ctx) ++ [<[name := value]> currentScope])
  | None => setVariable name value ctx
  end.

Definition setMetadata (key : string) (value : JSValue)
  (ctx : ExecutionContext) : ExecutionContext :=
  set_metadata ctx (<[key := value]> (metadata ctx)).

Definition getMetadata (key : string) (ctx : ExecutionContext) : JSValue :=
  map_get (metadata ctx) key.

Definition defineFunction (name : string) (parameters : list string)
  (body : list ASTNode) (namedParameters : option (list string))
  (ctx : ExecutionContext) : ExecutionContext :=
  set_userFunctions ctx
    (<[name := {| udf_name := name; udf_parameters := parameters;
                  udf_namedParameters := namedParameters;
                  udf_body := body |}]> (userFunctions ctx)).

Definition setNamedArgs (args : list (string * ASTNode))
  (ctx : ExecutionContext) : ExecutionContext :=
  {| variables := variables ctx; metadata := metadata ctx;
     userFunctions := userFunctions ctx; warnings := warnings ctx;
     namedArgs := args; options := options ctx;
     scopeStack := scopeStack ctx |}.

Definition getNamedArgs (ctx : ExecutionContext) : list (string * ASTNode) :=
  namedArgs ctx.

Definition addWarning (warning : CompileWarning) (ctx : ExecutionContext)
  : ExecutionContext :=
  set_warnings ctx (warnings ctx ++ [warning]).

Definition getWarnings (ctx : ExecutionContext) : list CompileWarning :=
  warnings ctx.

Definition nodeToValue (node : ASTNode) (ctx : ExecutionContext) : JSValue :=
  match node with
  | TextNode content _ => VString content
  | VariableNode name _ => getVariable name ctx
  | _ => VString (JSON_stringify node)
  end.

(** The loop that binds the positional parameters. *)
Fixpoint bind_parameters (parameters : list string) (args : list ASTNode)
  (ctx : ExecutionContext) : ExecutionContext :=
  match parameters, args with
  | paramName :: parameters', arg :: args' =>
      let argValue := nodeToValue arg ctx in
      bind_parameters parameters' args'
        (setScopedVariable paramName argValue ctx)
  | _, _ => ctx
  end.

(** [list.includes(name)] *)
Definition includes (l : list string) (name : string) : bool :=
  existsb (String.eqb name) l.

(** The loop that binds the named parameters, over the entries of the
    named arguments of the context. *)
Fixpoint bind_named (entries : list (string * ASTNode))
  (namedParameters : option (list string)) (ctx : ExecutionContext)
  : ExecutionContext :=
  match entries with
  | [] => ctx
  | (name, value) :: rest =>
      let ctx :=
        match namedParameters with
        | Some l =>
            if includes l name
            then setScopedVariable name (nodeToValue value ctx) ctx
            else ctx
        | None => ctx
        end in
      bind_named rest namedParameters ctx
  end.

(** The body of a user function is returned as it stands; the scope is
    pushed before the bindings and popped in the [finally] block. *)
Definition executeUserFunction (func : UserDefinedFunction)
  (args body : list ASTNode) (ctx : ExecutionContext)
  : list ASTNode * ExecutionContext :=
  let ctx := pushScope ctx in
  let ctx := bind_parameters (udf_parameters func) args ctx in
  let ctx := bind_named (namedArgs ctx) (udf_namedParameters func) ctx in
  let result := udf_body func in
  (result, popScope ctx).


(** ** The standard library (StandardLibrary.ts) *)

(** [ASTNode | ASTNode[] | null] *)
Inductive ExecResult : Type :=
| RNull
| RNode (node : ASTNode)
| RNodes (nodes : list ASTNode).

(** A computation on the execution context. The context is handed back in
    every outcome: what a call wrote before it threw stays written. *)
Definition Exec (A : Type) : Type :=
  ExecutionContext -> Outcome A * ExecutionContext.

Definition eret {A} (a : A) : Exec A := fun ctx => (Normal a, ctx).

Definition ebind {A B} (m : Exec A) (k : A -> Exec B) : Exec B :=
  fun ctx =>
    match m ctx with
    | (Normal a, ctx') => k a ctx'
    | (Throw e, ctx') => (Throw e, ctx')
    | (Diverge, ctx') => (Diverge, ctx')
    end.

Definition elift {A} (o : Outcome A) : Exec A := fun ctx => (o, ctx).

(** A method of the context that returns nothing. *)
Definition eupdate (f : ExecutionContext -> ExecutionContext) : Exec unit :=
  fun ctx => (Normal tt, f ctx).

(** A method of the context that only reads. *)
Definition eread {A} (f : ExecutionContext -> A) : Exec A :=
  fun ctx => (Normal (f ctx), ctx).

Notation "x <- m ;; k" := (ebind m (fun x => k))
  (at level 100, m at next level, right associativity).
Notation "m ;;; k" := (ebind m (fun _ => k))
  (at level 100, right associativity).

(** The step budget is the first argument of every implementation; only
    the loop of [repeat] spends it. *)
Definition FunctionImplementation : Type :=
  nat -> list ASTNode -> list ASTNode -> Exec ExecResult.

(** *** Helper methods *)

Fixpoint getTextFromNode (node : ASTNode) : string :=
  let texts :=
    fix texts (children : list ASTNode) : string :=
      match children with
      | [] => ""
      | child :: rest => getTextFromNode child +:+ texts rest
      end in
  match node with
  | TextNode content _ => content
  | ParagraphNode c _ | HeadingNode _ c _ | ListNode _ c _ | ListItemNode c _
  | BlockquoteNode _ c _ | EmphasisNode _ c _ | LinkNode _ _ c _
  | RowNode _ _ c | ColumnNode _ _ c | GridNode _ _ c | CenterNode c
  | OtherNode _ _ (Some c) => texts c
  | _ => ""
  end.

(** [getTextFromNode(args[i])]: the argument may be missing, and reading
    its [type] then throws. *)
Definition getTextFromNode_ref (node : option ASTNode) : Outcome string :=
  obind (deref node "type") (fun node => Normal (getTextFromNode node)).

(** [namedArgs[name]] *)
Fixpoint named_lookup (namedArgs : list (string * ASTNode)) (name : string)
  : option ASTNode :=
  match namedArgs with
  | [] => None
  | (k, v) :: rest =>
      if String.eqb k name then Some v else named_lookup rest name
  end.

Definition getStringArg (namedArgs : list (string * ASTNode)) (name : string)
  : option string :=
  match named_lookup namedArgs name with
  | Some arg => Some (getTextFromNode arg)
  | None => None
  end.

Definition getNumberArg (namedArgs : list (string * ASTNode)) (name : string)
  : option number :=
  match named_lookup namedArgs name with
  | None => None
  | Some arg =>
      let text := getTextFromNode arg in
      let num := parseFloat text in
      if isNaN num then None else Some num
  end.

Definition getNumberFromNode (node : option ASTNode)
  : Outcome (option number) :=
  obind (getTextFromNode_ref node) (fun text =>
    let num := parseFloat text in
    Normal (if isNaN num then None else Some num)).

Definition evaluateCondition (node : option ASTNode) : Exec bool :=
  text <- elift (getTextFromNode_ref node) ;;
  if startsWith "." text then
    let varName := slice_from 1 text in
    value <- eread (getVariable varName) ;;
    eret (js_truthy value)
  else if String.eqb text "true" then eret true
  else if String.eqb text "false" then eret false
  else
    let num := parseFloat text in
    eret (negb (isNaN num) && negb (num_is_zero num)).

(** *** Layout *)

Definition row : FunctionImplementation := fun _ args body =>
  namedArgs <- eread getNamedArgs ;;
  eret (RNode (RowNode (getStringArg namedArgs "alignment")
                 (getStringArg namedArgs "gap") body)).

Definition column : FunctionImplementation := fun _ args body =>
  namedArgs <- eread getNamedArgs ;;
  eret (RNode (ColumnNode (getStringArg namedArgs "cross")
                 (getStringArg namedArgs "gap") body)).

Definition grid : FunctionImplementation := fun _ args body =>
  namedArgs <- eread getNamedArgs ;;
  eret (RNode (GridNode (getNumberArg namedArgs "columns")
                 (getStringArg namedArgs "gap") body)).

Definition center : FunctionImplementation := fun _ args body =>
  eret (RNode (CenterNode body)).

(** *** Math *)

Definition add : FunctionImplementation := fun _ args body =>
  v <- elift (getNumberFromNode (args !! 0)) ;;
  let value := num_or v num_zero in
  namedArgs <- eread getNamedArgs ;;
  let toValue := num_or (getNumberArg namedArgs "to") num_zero in
  eret (RNode (TextNode (num_toString (num_add value toValue)) None)).

Definition multiply : FunctionImplementation := fun _ args body =>
  v <- elift (getNumberFromNode (args !! 0)) ;;
  let value := num_or v num_zero in
  namedArgs <- eread getNamedArgs ;;
  let byValue := num_or (getNumberArg namedArgs "by") num_one in
  eret (RNode (TextNode (num_toString (num_mul value byValue)) None)).

Definition pow : FunctionImplementation := fun _ args body =>
  v <- elift (getNumberFromNode (args !! 0)) ;;
  let base := num_or v num_zero in
  namedArgs <- eread getNamedArgs ;;
  let exponent := num_or (getNumberArg namedArgs "to") num_one in
  eret (RNode (TextNode (num_toString (Math_pow base exponent)) None)).

Definition truncate : FunctionImplementation := fun _ args body =>
  v <- elift (getNumberFromNode (args !! 0)) ;;
  let decimals := num_or v num_zero in
  let content := String.concat "" (List.map getTextFromNode body) in
  let number := parseFloat content in
  if isNaN number then eret (RNode (TextNode content None))
  else
    fixed <- elift (num_toFixed number decimals) ;;
    eret (RNode (TextNode fixed None)).

(** *** Control flow *)

Definition if_ : FunctionImplementation := fun _ args body =>
  condition <- evaluateCondition (args !! 0) ;;
  eret (if condition then RNodes body else RNull).

(** The [for] loop of [repeat]: [i] is the counter and [result] the array
    under construction. *)
Fixpoint repeat_loop (fuel : nat) (i : nat) (count : number)
  (body result : list ASTNode) : Exec (list ASTNode) :=
  match fuel with
  | O => elift Diverge
  | S fuel' =>
      if num_ltb (num_of_nat i) count then
        eupdate (setVariable "_index" (VNumber (num_of_nat i))) ;;;
        repeat_loop fuel' (S i) count body (result ++ body)
      else eret result
  end.

Definition repeat_ : FunctionImplementation := fun fuel args body =>
  v <- elift (getNumberFromNode (args !! 0)) ;;
  let count := num_or v num_one in
  result <- repeat_loop fuel 0 count body [] ;;
  eret (RNodes result).

(** *** Variables *)

Definition var : FunctionImplementation := fun _ args body =>
  name <- elift (getTextFromNode_ref (args !! 0)) ;;
  value <- (if (1 <? length args)%nat
            then elift (getTextFromNode_ref (args !! 1))
            else eret "") ;;
  eupdate (setVariable name (VString value)) ;;;
  eret RNull.

(** *** String operations *)

Definition map_text (f : string -> string) (node : ASTNode) : ASTNode :=
  match node with
  | TextNode content location => TextNode (f content) location
  | _ => node
  end.

Definition upper : FunctionImplementation := fun _ args body =>
  eret (RNodes (List.map (map_text toUpperCase) body)).

Definition lower : FunctionImplementation := fun _ args body =>
  eret (RNodes (List.map (map_text toLowerCase) body)).

(** *** Document metadata *)

Definition docname : FunctionImplementation := fun _ args body =>
  title <- elift (getTextFromNode_ref (args !! 0)) ;;
  eupdate (setMetadata "title" (VString title)) ;;;
  eret RNull.

Definition docauthor : FunctionImplementation := fun _ args body =>
  author <- elift (getTextFromNode_ref (args !! 0)) ;;
  eupdate (setMetadata "author" (VString author)) ;;;
  eret RNull.

Definition doctype : FunctionImplementation := fun _ args body =>
  doctype <- elift (getTextFromNode_ref (args !! 0)) ;;
  eupdate (setMetadata "doctype" (VString doctype)) ;;;
  eret RNull.

Definition theme : FunctionImplementation := fun _ args body =>
  themeName <- elift (getTextFromNode_ref (args !! 0)) ;;
  namedArgs <- eread getNamedArgs ;;
  let layout := getStringArg namedArgs "layout" in
  eupdate (setMetadata "theme" (VString themeName)) ;;;
  match layout with
  | Some l =>
      if negb (String.eqb l "")
      then eupdate (setMetadata "layout" (VString l)) ;;; eret RNull
      else eret RNull
  | None => eret RNull
  end.

(** *** Inclusion and function definition *)

Definition include : FunctionImplementation := fun _ args body =>
  path <- elift (getTextFromNode_ref (args !! 0)) ;;
  eret (RNodes [TextNode ("[Included: " +:+ path +:+ "]") None]).

Definition function : FunctionImplementation := fun _ args body =>
  functionName <- elift (getTextFromNode_ref (args !! 0)) ;;
  let parameters : list string := [] in
  eupdate (defineFunction functionName parameters body None) ;;;
  eret RNull.

(** *** The table of the library *)

Definition register (name : string) (impl : FunctionImplementation)
  (functions : gmap string FunctionImplementation)
  : gmap string FunctionImplementation :=
  <[name := impl]> functions.

(** [registerStandardFunctions], in the order of the source. *)
Definition functions : gmap string FunctionImplementation :=
  List.fold_left (fun m entry => register (fst entry) (snd entry) m)
    [("row", row); ("column", column); ("grid", grid); ("center", center);
     ("add", add); ("multiply", multiply); ("pow", pow);
     ("truncate", truncate); ("if", if_); ("repeat", repeat_); ("var", var);
     ("upper", upper); ("lower", lower); ("docname", docname);
     ("docauthor", docauthor); ("doctype", doctype); ("theme", theme);
     ("include", include); ("function", function)]
    ∅.

(** [StandardLibrary.hasFunction] *)
Definition stdlib_hasFunction (name : string) : bool := map_has functions name.

(** [StandardLibrary.executeFunction] *)
Definition stdlib_executeFunction (fuel : nat) (name : string)
  (args body : list ASTNode) : Exec ExecResult :=
  match functions !! name with
  | None => elift (Throw (Error ("Unknown function: " +:+ name)))
  | Some impl => impl fuel args body
  end.

(** *** The function methods of the context *)

(** [ExecutionContext.hasFunction] *)
Definition hasFunction (name : string) (ctx : ExecutionContext) : bool :=
  map_has (userFunctions ctx) name || stdlib_hasFunction name.

(** [ExecutionContext.executeFunction] *)
Definition executeFunction (fuel : nat) (name : string)
  (args body : list ASTNode) : Exec ExecResult :=
  fun ctx =>
    match userFunctions ctx !! name with
    | Some userFunc =>
        let '(result, ctx) := executeUserFunction userFunc args body ctx in
        (Normal (RNodes result), ctx)
    | None =>
        if stdlib_hasFunction name
        then stdlib_executeFunction fuel name args body ctx
        else (Throw (Error ("Unknown function: " +:+ name)), ctx)
    end.

(** ** The compiler (QuarkdownCompiler.ts) *)

Inductive CompileErrorType : Type := ce_syntax | ce_semantic | ce_runtime.

Record CompileError : Type := mkError {
  ce_message : string;
  ce_line : option number;
  ce_column : option number;
  ce_type : CompileErrorType
}.

Record DocumentMetadata : Type := mkMetadata {
  md_title : option string;
  md_author : option string;
  md_language : option string;
  md_doctype : string;
  md_theme : option string;
  md_createdAt : Date
}.

Record CompileResult : Type := mkResult {
  cr_html : string;
  cr_metadata : DocumentMetadata;
  cr_errors : list CompileError;
  cr_warnings : list CompileWarning
}.

(** A parse error is pushed as it is into the list of compile errors. *)
Definition error_of_parse (e : Parser.ParseError) : CompileError :=
  {| ce_message := Parser.pe_message e; ce_line := Parser.pe_line e;
     ce_column := Parser.pe_column e;
     ce_type := match Parser.pe_type e with
                | Parser.syntax => ce_syntax
                | Parser.semantic => ce_semantic
                end |}.

Definition getDefaultMetadata : DocumentMetadata :=
  {| md_title := None; md_author := None; md_language := None;
     md_doctype := "plain"; md_theme := None; md_createdAt := new_Date |}.

Definition extractStringArgument (args : list ASTNode) (index : nat)
  : option string :=
  match args !! index with
  | Some (TextNode content _) => Some content
  | _ => None
  end.

(** The body of the loop of [extractMetadata] for one top-level node. *)
Definition extractMetadata_step (metadata : DocumentMetadata)
  (node : ASTNode) : DocumentMetadata :=
  match node with
  | FunctionCallNode name args _ _ _ =>
      if String.eqb name "docname" then
        {| md_title := extractStringArgument args 0;
           md_author := md_author metadata;
           md_language := md_language metadata;
           md_doctype := md_doctype metadata; md_theme := md_theme metadata;
           md_createdAt := md_createdAt metadata |}
      else if String.eqb name "docauthor" then
        {| md_title := md_title metadata;
           md_author := extractStringArgument args 0;
           md_language := md_language metadata;
           md_doctype := md_doctype metadata; md_theme := md_theme metadata;
           md_createdAt := md_createdAt metadata |}
      else if String.eqb name "doclang" then
        {| md_title := md_title metadata; md_author := md_author metadata;
           md_language := extractStringArgument args 0;
           md_doctype := md_doctype metadata; md_theme := md_theme metadata;
           md_createdAt := md_createdAt metadata |}
      else if String.eqb name "doctype" then
        match extractStringArgument args 0 with
        | Some doctype =>
            if negb (String.eqb doctype "")
               && includes ["slides"; "paged"; "plain"] doctype
            then
              {| md_title := md_title metadata;
                 md_author := md_author metadata;
                 md_language := md_language metadata;
                 md_doctype := doctype; md_theme := md_theme metadata;
                 md_createdAt := md_createdAt metadata |}
            else metadata
        | None => metadata
        end
      else if String.eqb name "theme" then
        {| md_title := md_title metadata; md_author := md_author metadata;
           md_language := md_language metadata;
           md_doctype := md_doctype metadata;
           md_theme := extractStringArgument args 0;
           md_createdAt := md_createdAt metadata |}
      else metadata
  | _ => metadata
  end.

Definition extractMetadata (ast : DocumentNode) (context : ExecutionContext)
  : DocumentMetadata :=
  List.fold_left extractMetadata_step (doc_children ast) getDefaultMetadata.

Definition executeFunctionCall (fuel : nat) (name : string)
  (args body : list ASTNode) : Exec ExecResult :=
  fun context =>
    if stdlib_hasFunction name
    then stdlib_executeFunction fuel name args body context
    else if hasFunction name context
    then executeFunction fuel name args body context
    else
      let context :=
        addWarning {| cw_message := "Unknown function: " +:+ name;
                      cw_line := None; cw_column := None;
                      cw_type := style |} context in
      (Normal RNull, context).

Definition resolveVariable (name : string) : Exec ASTNode :=
  fun context =>
    match getVariable name context with
    | VUndefined =>
        let context :=
          addWarning {| cw_message := "Undefined variable: " +:+ name;
                        cw_line := None; cw_column := None;
                        cw_type := style |} context in
        (Normal (TextNode ("{{" +:+ name +:+ "}}") None), context)
    | value => (Normal (TextNode (js_String value) None), context)
    end.

(** What an executed node adds to the array of its parent: nothing for
    [null], the elements of an array, or the node. *)
Definition splice (result : ExecResult) : list ASTNode :=
  match result with
  | RNull => []
  | RNode node => [node]
  | RNodes nodes => nodes
  end.

Fixpoint executeNode (fuel : nat) (node : ASTNode) {struct node}
  : Exec ExecResult :=
  let executeChildren :=
    fix executeChildren (children processedChildren : list ASTNode)
      : Exec (list ASTNode) :=
      match children with
      | [] => eret processedChildren
      | child :: rest =>
          processed <- executeNode fuel child ;;
          executeChildren rest (processedChildren ++ splice processed)
      end in
  match node with
  | FunctionCallNode name args _ body _ =>
      executeFunctionCall fuel name args body
  | VariableNode name _ =>
      resolved <- resolveVariable name ;;
      eret (RNode resolved)
  | ParagraphNode children _ | HeadingNode _ children _
  | ListNode _ children _ | BlockquoteNode _ children _ =>
      processedChildren <- executeChildren children [] ;;
      eret (RNode (with_children node processedChildren))
  | _ => eret (RNode node)
  end.

(** The loop of [executeDocument], which is also the loop over the
    children of a container in [executeNode]. *)
Fixpoint executeNodes (fuel : nat) (nodes executed : list ASTNode)
  : Exec (list ASTNode) :=
  match nodes with
  | [] => eret executed
  | node :: rest =>
      executedNode <- executeNode fuel node ;;
      executeNodes fuel rest (executed ++ splice executedNode)
  end.

Definition executeDocument (fuel : nat) (ast : DocumentNode)
  : Exec DocumentNode :=
  executedChildren <- executeNodes fuel (doc_children ast) [] ;;
  eret {| doc_children := executedChildren |}.

(** [options.strict] as a condition *)
Definition is_strict (options : CompileOptions) : bool :=
  match opt_strict options with
  | Some b => b
  | None => false
  end.

(** The body of the [try] block of [compile], together with the arrays
    [errors] and [warnings] as they stand when the block is left. The
    options handed to the renderer are the compile options with [doctype]
    and [theme] replaced by those of the metadata. *)
Definition compile_try (fuel : nat) (source : string)
  (options : CompileOptions) (errors : list CompileError)
  (warnings : list CompileWarning)
  : Outcome CompileResult * list CompileError * list CompileWarning :=
  let parseResult := Parser.parse md_parse source in
  let failed := (0 <? length (Parser.errors parseResult))%nat in
  let errors :=
    if failed
    then errors ++ List.map error_of_parse (Parser.errors parseResult)
    else errors in
  if failed && is_strict options then
    (Normal {| cr_html := ""; cr_metadata := getDefaultMetadata;
               cr_errors := errors; cr_warnings := warnings |},
     errors, warnings)
  else
    let context := new_ExecutionContext options in
    let metadata := extractMetadata (Parser.ast parseResult) context in
    match executeDocument fuel (Parser.ast parseResult) context with
    | (Normal expandedAst, context) =>
        match render expandedAst
                {| ro_doctype := Some (md_doctype metadata);
                   ro_theme := md_theme metadata;
                   ro_outputFormat := opt_outputFormat options;
                   ro_includeStyles := None; ro_minify := None |} with
        | Normal html =>
            let warnings := warnings ++ getWarnings context in
            (Normal {| cr_html := html; cr_metadata := metadata;
                       cr_errors := errors; cr_warnings := warnings |},
             errors, warnings)
        | Throw error => (Throw error, errors, warnings)
        | Diverge => (Diverge, errors, warnings)
        end
    | (Throw error, _) => (Throw error, errors, warnings)
    | (Diverge, _) => (Diverge, errors, warnings)
    end.

(** [compile]: the result, or [None] when the step budget does not
    suffice. *)
Definition compile (fuel : nat) (source : string) (options : CompileOptions)
  : option CompileResult :=
  let errors : list CompileError := [] in
  let warnings : list CompileWarning := [] in
  match compile_try fuel source options errors warnings with
  | (Normal result, _, _) => Some result
  | (Throw error, errors, warnings) =>
      let errors :=
        errors ++ [ {| ce_message :=
                         "Compilation failed: " +:+ error_message error;
                       ce_line := None; ce_column := None;
                       ce_type := ce_runtime |} ] in
      Some {| cr_html := ""; cr_metadata := getDefaultMetadata;
              cr_errors := errors; cr_warnings := warnings |}
  | (Diverge, _, _) => None
  end.

(** *** Diagnostics *)

Record Position : Type := mkPosition {
  pos_line : number;
  pos_character : number
}.

Record Range : Type := mkRange {
  range_start : Position;
  range_end : Position
}.

Record Diagnostic : Type := mkDiagnostic {
  d_range : Range;
  d_message : string;
  d_severity : Z;
  d_source : string
}.

(** An element of [[...result.errors, ...result.warnings]]. *)
Inductive Issue : Type :=
| IError (e : CompileError)
| IWarning (w : CompileWarning).

Definition issue_message (issue : Issue) : string :=
  match issue with
  | IError e => ce_message e
  | IWarning w => cw_message w
  end.

Definition issue_line (issue : Issue) : option number :=
  match issue with
  | IError e => ce_line e
  | IWarning w => cw_line w
  end.

Definition issue_column (issue : Issue) : option number :=
  match issue with
  | IError e => ce_column e
  | IWarning w => cw_column w
  end.

(** [issue.type], as the string of the source. *)
Definition issue_type (issue : Issue) : string :=
  match issue with
  | IError e =>
      match ce_type e with
      | ce_syntax => "syntax"
      | ce_semantic => "semantic"
      | ce_runtime => "runtime"
      end
  | IWarning w =>
      match cw_type w with
      | deprecation => "deprecation"
      | performance => "performance"
      | style => "style"
      end
  end.

Definition issues (result : CompileResult) : list Issue :=
  List.map IError (cr_errors result) ++ List.map IWarning (cr_warnings result).

(** The function mapped over the issues by [getDiagnostics]. *)
Definition diagnostic_of (issue : Issue) : Diagnostic :=
  {| d_range :=
       {| range_start :=
            {| pos_line := num_or (issue_line issue) num_zero;
               pos_character := num_or (issue_column issue) num_zero |};
          range_end :=
            {| pos_line := num_or (issue_line issue) num_zero;
               pos_character :=
                 num_add (num_or (issue_column issue) num_zero)
                   (num_of_nat 10) |} |};
     d_message := issue_message issue;
     d_severity :=
       if String.eqb (issue_type issue) "syntax"
          || String.eqb (issue_type issue) "semantic"
       then 1%Z else 2%Z;
     d_source := "quarkdown" |}.

Definition strict_false : CompileOptions :=
  {| opt_doctype := None; opt_theme := None; opt_outputFormat := None;
     opt_strict := Some false; opt_includePaths := None |}.

Definition getDiagnostics (fuel : nat) (source : string)
  : option (list Diagnostic) :=
  match compile fuel source strict_false with
  | Some result => Some (List.map diagnostic_of (issues result))
  | None => None
  end.

End Pipeline.

(** ** The leaf renderers (QuarkdownRenderer.ts) *)

Module Renderer.

(** The serialisation of the data of a text node by [innerHTML], as the
    HTML standard defines it outside attribute mode: the ampersand, the
    no-break space and the two angle brackets are replaced, and nothing
    else is. *)
Fixpoint serialize_text (text : string) : string :=
  match text with
  | EmptyString => EmptyString
  | String c rest =>
      (if Ascii.eqb c "&" then "&amp;"
       else if Ascii.eqb c "160" then "&nbsp;"
       else if Ascii.eqb c "<" then "&lt;"
       else if Ascii.eqb c ">" then "&gt;"
       else String c EmptyString) +:+ serialize_text rest
  end.

Section Leaves.

(** The global [document] of the host: [None] where there is none, as in
    the extension host of the editor; otherwise the function from the
    [textContent] given to a fresh element to its [innerHTML]. *)
Variable document : option (string -> string).

Definition escapeHtml (text : string) : Outcome string :=
  match document with
  | Some innerHTML => Normal (innerHTML text)
  | None => Throw (ReferenceError "document is not defined")
  end.

(** [renderText], on the content of the node *)
Definition renderText (content : string) : Outcome string :=
  escapeHtml content.

(** [renderCode], on the fields of the node *)
Definition renderCode (content : string) (language : option string)
  (inline : bool) : Outcome string :=
  obind (escapeHtml content) (fun content =>
    if inline then Normal ("<code>" +:+ content +:+ "</code>")
    else
      let languageClass :=
        match language with
        | Some l =>
            if negb (String.eqb l "")
            then " class=" +:+ dq +:+ "language-" +:+ l +:+ dq
            else ""
        | None => ""
        end in
      Normal ("<pre><code" +:+ languageClass +:+ ">" +:+ content
              +:+ "</code></pre>")).

(** [renderMath], on the fields of the node *)
Definition renderMath (content : string) (inline : bool) : Outcome string :=
  obind (escapeHtml content) (fun content =>
    let className :=
      if inline then "math math-inline" else "math math-display" in
    Normal ("<span class=" +:+ dq +:+ className +:+ dq +:+ ">" +:+ content
            +:+ "</span>")).

(** A string that may be [undefined], as a condition *)
Definition truthy (o : option string) : bool :=
  match o with
  | Some s => negb (String.eqb s "")
  | None => false
  end.

(** [` name="${escapeHtml(value)}"`] when the value is truthy, else [''] *)
Definition escaped_attribute (name : string) (value : option string)
  : Outcome string :=
  if truthy value then
    obind (escapeHtml (Parser.or_empty value)) (fun v =>
      Normal (" " +:+ name +:+ "=" +:+ dq +:+ v +:+ dq))
  else Normal "".

(** [renderImage], on the fields of the node *)
Definition renderImage (src : string) (alt title width height : option string)
  : Outcome string :=
  obind (escaped_attribute "alt" alt) (fun alt =>
  obind (escaped_attribute "title" title) (fun title =>
    let style :=
      if truthy width || truthy height then
        let styleProps : list string := [] in
        let styleProps :=
          if truthy width
          then styleProps ++ ["width: " +:+ Parser.or_empty width]
          else styleProps in
        let styleProps :=
          if truthy height
          then styleProps ++ ["height: " +:+ Parser.or_empty height]
          else styleProps in
        " style=" +:+ dq +:+ join "; " styleProps +:+ dq
      else "" in
    obind (escapeHtml src) (fun src =>
      Normal ("<img src=" +:+ dq +:+ src +:+ dq +:+ alt +:+ title +:+ style
              +:+ ">")))).

End Leaves.

End Renderer.

(** ** A runtime for examples

    The doubles that are integers of magnitude at most 2^53, on which the
    arithmetic of doubles is the arithmetic of integers, together with NaN.
    A double outside of these is [Untracked]: the instance says nothing of
    its value, and no example below meets one. *)

Module SafeIntegers.

Inductive num : Type :=
| NaN
| Int (z : Z)
| Untracked.

Definition safe (z : Z) : num :=
  if (Z.abs z <=? 2 ^ 53)%Z then Int z else Untracked.

Definition digit_value (c : ascii) : Z := Z.of_nat (nat_of_ascii c) - 48.

Fixpoint digits_value (acc : Z) (s : string) : Z :=
  match s with
  | EmptyString => acc
  | String c rest => digits_value (10 * acc + digit_value c) rest
  end.

(** A decimal literal at the start of [s], after white space and a sign.
    [float] tells whether a fraction or an exponent may follow the
    digits, as for [parseFloat]; such a literal is not tracked. *)
Definition parse_number (float : bool) (s : string) : num :=
  let s := drop_while is_space s in
  let '(negative, s) :=
    match s with
    | String "-" rest => (true, rest)
    | String "+" rest => (false, rest)
    | _ => (false, s)
    end in
  let digits := take_while is_digit s in
  let rest := slice_from (String.length digits) s in
  match digits with
  | EmptyString =>
      if float && (startsWith "Infinity" rest || startsWith "." rest)
      then Untracked else NaN
  | _ =>
      if float && (startsWith "." rest || startsWith "e" rest
                   || startsWith "E" rest)
      then Untracked
      else if negb float && (startsWith "x" rest || startsWith "X" rest)
      then Untracked
      else safe (if negative then - digits_value 0 digits
                 else digits_value 0 digits)
  end.

Definition lift2 (f : Z -> Z -> Z) (a b : num) : num :=
  match a, b with
  | NaN, _ | _, NaN => NaN
  | Int x, Int y => safe (f x y)
  | _, _ => Untracked
  end.

Definition power (base exponent : num) : num :=
  match base, exponent with
  | _, NaN => NaN
  | _, Int 0 => Int 1
  | NaN, _ => NaN
  | Int x, Int y => if (0 <=? y)%Z then safe (x ^ y) else Untracked
  | _, _ => Untracked
  end.

Fixpoint decimal_digits (fuel : nat) (n : Z) (acc : string) : string :=
  match fuel with
  | O => acc
  | S fuel' =>
      let acc := String (ascii_of_nat (Z.to_nat (n mod 10) + 48)) acc in
      if (n <? 10)%Z then acc else decimal_digits fuel' (n / 10) acc
  end.

Definition decimal (z : Z) : string :=
  let digits := decimal_digits (S (Z.to_nat (Z.log2 (Z.abs z)))) (Z.abs z) "" in
  if (z <? 0)%Z then "-" +:+ digits else digits.

Definition toString (n : num) : string :=
  match n with
  | NaN => "NaN"
  | Int z => decimal z
  | Untracked => "(untracked)"
  end.

Fixpoint zeros (n : nat) : string :=
  match n with
  | O => ""
  | S n' => String "0" (zeros n')
  end.

Definition toFixed (n digits : num) : Outcome string :=
  match digits with
  | Untracked => Normal "(untracked)"
  | _ =>
      let d := match digits with Int d => d | _ => 0%Z end in
      if (d <? 0)%Z || (100 <? d)%Z then
        Throw (RangeError
                 "toFixed() digits argument must be between 0 and 100")
      else
        match n with
        | NaN => Normal "NaN"
        | Int z =>
            Normal (if (d =? 0)%Z then decimal z
                    else decimal z +:+ "." +:+ zeros (Z.to_nat d))
        | Untracked => Normal "(untracked)"
        end
  end.

Definition map_string (f : ascii -> ascii) : string -> string :=
  fix go (s : string) : string :=
    match s with
    | EmptyString => EmptyString
    | String c rest => String (f c) (go rest)
    end.

(** The case mappings on the letters of ASCII. *)
Definition upper_char (c : ascii) : ascii :=
  if is_lower c then ascii_of_nat (nat_of_ascii c - 32) else c.

Definition lower_char (c : ascii) : ascii :=
  if is_upper c then ascii_of_nat (nat_of_ascii c + 32) else c.

#[export] Instance runtime : JSRuntime := {|
  number := num;
  parseFloat := parse_number true;
  parseInt := parse_number false;
  isNaN := fun n => match n with NaN => true | _ => false end;
  num_is_zero := fun n => match n with Int 0 => true | _ => false end;
  num_add := lift2 Z.add;
  num_mul := lift2 Z.mul;
  Math_pow := power;
  num_ltb := fun a b =>
    match a, b with Int x, Int y => (x <? y)%Z | _, _ => false end;
  num_of_nat := fun n => safe (Z.of_nat n);
  num_toString := toString;
  num_toFixed := toFixed;
  Math_PI := Untracked;
  Math_E := Untracked;
  toUpperCase := map_string upper_char;
  toLowerCase := map_string lower_char
|}.

End SafeIntegers.

(** ** Hosts and inputs for examples *)

Module Examples.
Import SafeIntegers.

(** A host on the first of November 2026. [JSON.stringify] is only called
    on the arguments of user functions, of which the examples have none. *)
Definition host_with (md : string -> JSError + list Parser.Token)
  (rn : DocumentNode -> RenderOptions -> Outcome string) : Host :=
  {| Date := unit; new_Date := tt;
     toLocaleDateString := "11/1/2026";
     toLocaleString := "11/1/2026, 12:00:00 PM";
     getFullYear := Int 2026; getMonth := Int 10; getDate := Int 1;
     JSON_stringify := fun _ => "{}";
     md_parse := md; render := rn |}.

(** The extension host has no [document]: the renderer throws at its
    first call of [escapeHtml]. *)
Definition render_without_dom (ast : DocumentNode) (options : RenderOptions)
  : Outcome string :=
  Throw (ReferenceError "document is not defined").

(** A tokenizer that throws. *)
Definition md_throws (source : string) : JSError + list Parser.Token :=
  inl (Error "Rule not found: text").

(** A tokenizer that hands out the given tokens. *)
Definition md_tokens (tokens : list Parser.Token) (source : string)
  : JSError + list Parser.Token :=
  inr tokens.

(** What markdown-it returns for a source that is one line of plain text:
    the three tokens of a paragraph, with the line as the content of the
    inline token. The tokens of the line itself are children of the inline
    token, which the repository never reads. *)
Definition paragraph_tokens (line : string) : list Parser.Token :=
  [ {| Parser.tok_type := "paragraph_open"; Parser.tok_tag := "p";
       Parser.tok_nesting := 1; Parser.tok_attrs := [];
       Parser.tok_map := Some (0, 1); Parser.tok_content := "";
       Parser.tok_markup := ""; Parser.tok_info := "" |};
    {| Parser.tok_type := "inline"; Parser.tok_tag := "";
       Parser.tok_nesting := 0; Parser.tok_attrs := [];
       Parser.tok_map := Some (0, 1); Parser.tok_content := line;
       Parser.tok_markup := ""; Parser.tok_info := "" |};
    {| Parser.tok_type := "paragraph_close"; Parser.tok_tag := "p";
       Parser.tok_nesting := -1; Parser.tok_attrs := [];
       Parser.tok_map := None; Parser.tok_content := "";
       Parser.tok_markup := ""; Parser.tok_info := "" |} ].

Definition md_paragraph (source : string) : JSError + list Parser.Token :=
  inr (paragraph_tokens source).

#[export] Instance host : Host := host_with (md_tokens []) render_without_dom.

Definition no_options : CompileOptions :=
  {| opt_doctype := None; opt_theme := None; opt_outputFormat := None;
     opt_strict := None; opt_includePaths := None |}.

(** The context of a fresh compilation. *)
Definition fresh : ExecutionContext := new_ExecutionContext no_options.

Definition text (content : string) : ASTNode := TextNode content None.

(** [.add {5} to:{3}] as a call node *)
Definition add_5_to_3 : ASTNode :=
  FunctionCallNode "add" [text "5"] [("to", text "3")] [] None.

(** [.if {.flag}] with a body *)
Definition if_flag (body : list ASTNode) : ASTNode :=
  FunctionCallNode "if" [text ".flag"] [] body None.

(** [.var {x} {5}] *)
Definition var_x_5 : ASTNode :=
  FunctionCallNode "var" [text "x"; text "5"] [] [] None.

(** [.repeat {3}] with a body that refers to the loop index *)
Definition repeat_3_index : ASTNode :=
  FunctionCallNode "repeat" [text "3"] [] [VariableNode "_index" None] None.

(** The attack string: a double quote that ends the attribute, a tag. *)
Definition breakout : string := dq +:+ "><script>alert(1)</script>".

(** The extension host on a paragraph of plain text. *)
Definition paragraph_host : Host := host_with md_paragraph render_without_dom.

(** The context in which the named arguments of [.add {5} to:{3}] have
    been set. *)
Definition with_to_3 : ExecutionContext :=
  setNamedArgs [("to", text "3")] fresh.

End Examples.

(** ** Statements of the specification, as predicates *)

Section Statements.
Context {rt : JSRuntime} {host : Host}.

Definition unknown_function_warning (name : string) : CompileWarning :=
  {| cw_message := "Unknown function: " +:+ name; cw_line := None;
     cw_column := None; cw_type := style |}.

Definition undefined_variable_warning (name : string) : CompileWarning :=
  {| cw_message := "Undefined variable: " +:+ name; cw_line := None;
     cw_column := None; cw_type := style |}.

Definition syntax_error (error : JSError) : Parser.ParseError :=
  {| Parser.pe_message := "Parse error: " +:+ error_message error;
     Parser.pe_line := None; Parser.pe_column := None;
     Parser.pe_type := Parser.syntax |}.

Definition runtime_error (error : JSError) : CompileError :=
  {| ce_message := "Compilation failed: " +:+ error_message error;
     ce_line := None; ce_column := None; ce_type := ce_runtime |}.

Definition is_runtime (e : CompileError) : bool :=
  match ce_type e with
  | ce_runtime => true
  | _ => false
  end.

(** The issue is an error of type syntax or semantic. *)
Definition syntax_or_semantic (issue : Issue) : Prop :=
  exists e, issue = IError e /\ (ce_type e = ce_syntax \/ ce_type e = ce_semantic).

(** The issue is an error of type runtime, or a warning. *)
Definition runtime_or_warning (issue : Issue) : Prop :=
  (exists e, issue = IError e /\ ce_type e = ce_runtime)
  \/ (exists w, issue = IWarning w).

(** What the specification says of the diagnostic made from an issue. *)
Definition diagnostic_spec (issue : Issue) (d : Diagnostic) : Prop :=
  (d_severity d = 1%Z <-> syntax_or_semantic issue)
  /\ (runtime_or_warning issue -> d_severity d = 2%Z)
  /\ range_start (d_range d)
     = {| pos_line := num_or (issue_line issue) num_zero;
          pos_character := num_or (issue_column issue) num_zero |}
  /\ pos_line (range_end (d_range d)) = pos_line (range_start (d_range d))
  /\ pos_character (range_end (d_range d))
     = num_add (pos_character (range_start (d_range d))) (num_of_nat 10).

(** The truth value of a condition text, as the code computes it: a
    leading dot names a variable, whose value counts as JavaScript counts
    it; then the two literals; then a number, which counts when it is
    neither NaN nor zero; any other text does not count. *)
Definition condition_truth (text : string) (ctx : ExecutionContext) : bool :=
  match text with
  | String "." varName =>
      match getVariable varName ctx with
      | VUndefined => false
      | VBoolean b => b
      | VNumber n => negb (num_is_zero n) && negb (isNaN n)
      | VString s => negb (String.eqb s "")
      end
  | _ =>
      if String.eqb text "true" then true
      else if String.eqb text "false" then false
      else negb (isNaN (parseFloat text)) && negb (num_is_zero (parseFloat text))
  end.

(** The current scope does not bind the name. *)
Definition not_shadowed (name : string) (ctx : ExecutionContext) : Prop :=
  match last (scopeStack ctx) with
  | Some currentScope => currentScope !! name = None
  | None => True
  end.

End Statements.

(** The computation leaves the named arguments of the context as they
    are. *)
Definition keeps_named {rt : JSRuntime} {A} (m : Exec A) : Prop :=
  forall ctx, namedArgs (snd (m ctx)) = namedArgs ctx.

(** ** Further code of the same files *)

Section Utilities.
Context {rt : JSRuntime} {host : Host}.

(** *** ASTUtils (ast/ASTNodes.ts) *)

Definition isTextContent (node : ASTNode) : bool :=
  String.eqb (node_type node) "text" || String.eqb (node_type node) "code".

Definition isContainerNode (node : ASTNode) : bool :=
  includes ["paragraph"; "heading"; "list"; "blockquote"; "row"; "column";
            "grid"] (node_type node).

Definition isFunctionNode (node : ASTNode) : bool :=
  String.eqb (node_type node) "function_call"
  || String.eqb (node_type node) "function_definition".

(** [findNodes]: the nodes that satisfy the predicate, the node itself
    first and then those below its [children], child by child. *)
Fixpoint findNodes (predicate : ASTNode -> bool) (root : ASTNode)
  : list ASTNode :=
  let traverse_children :=
    fix traverse_children (children : list ASTNode) : list ASTNode :=
      match children with
      | [] => []
      | child :: rest => findNodes predicate child ++ traverse_children rest
      end in
  (if predicate root then [root] else [])
  ++ match root with
     | ParagraphNode c _ | HeadingNode _ c _ | ListNode _ c _
     | ListItemNode c _ | BlockquoteNode _ c _ | EmphasisNode _ c _
     | LinkNode _ _ c _ | RowNode _ _ c | ColumnNode _ _ c | GridNode _ _ c
     | CenterNode c | OtherNode _ _ (Some c) => traverse_children c
     | _ => []
     end.

Definition findNodesByType (root : ASTNode) (type : string) : list ASTNode :=
  findNodes (fun node => String.eqb (node_type node) type) root.

(** [node.name], [None] when the node has no such property. *)
Definition node_name (node : ASTNode) : option string :=
  match node with
  | FunctionCallNode name _ _ _ _ | VariableNode name _ => Some name
  | _ => None
  end.

(** [findFunctionCalls]: the optional name is a condition, and so the
    empty string selects as no name does. *)
Definition findFunctionCalls (root : ASTNode) (functionName : option string)
  : list ASTNode :=
  let calls := findNodesByType root "function_call" in
  match functionName with
  | Some wanted =>
      if negb (String.eqb wanted "")
      then List.filter
             (fun call => match node_name call with
                          | Some name => String.eqb name wanted
                          | None => false
                          end) calls
      else calls
  | None => calls
  end.

(** [ASTUtils.getTextContent] *)
Fixpoint getTextContent (node : ASTNode) : string :=
  let texts :=
    fix texts (children : list ASTNode) : string :=
      match children with
      | [] => ""
      | child :: rest => getTextContent child +:+ texts rest
      end in
  match node with
  | TextNode content _ => content
  | ParagraphNode c _ | HeadingNode _ c _ | ListNode _ c _ | ListItemNode c _
  | BlockquoteNode _ c _ | EmphasisNode _ c _ | LinkNode _ _ c _
  | RowNode _ _ c | ColumnNode _ _ c | GridNode _ _ c | CenterNode c
  | OtherNode _ _ (Some c) => texts c
  | _ => ""
  end.

(** *** More of the execution context *)

(** [s.endsWith(p)] *)
Definition endsWith (p s : string) : bool :=
  (String.length p <=? String.length s)%nat
  && String.eqb (slice_from (String.length s - String.length p) s) p.

Definition evaluateExpression (expression : string) (ctx : ExecutionContext)
  : JSValue :=
  if startsWith "." expression then
    let varName := slice_from 1 expression in
    getVariable varName ctx
  else
    let num := parseFloat expression in
    if negb (isNaN num) then VNumber num
    else if String.eqb expression "true" then VBoolean true
    else if String.eqb expression "false" then VBoolean false
    else if startsWith dq expression && endsWith dq expression
    then VString (slice 1 (String.length expression - 1) expression)
    else VString expression.

(** The loops of [clone] that copy the entries of a map into the map of
    the new context. *)
Definition copy_entries {V} (from into : gmap string V) : gmap string V :=
  map_fold (fun key value m => <[key := value]> m) into from.

Definition clone (ctx : ExecutionContext) : ExecutionContext :=
  let cloned := new_ExecutionContext (options ctx) in
  let cloned :=
    set_variables cloned (copy_entries (variables ctx) (variables cloned)) in
  let cloned :=
    set_metadata cloned (copy_entries (metadata ctx) (metadata cloned)) in
  let cloned :=
    set_userFunctions cloned
      (copy_entries (userFunctions ctx) (userFunctions cloned)) in
  set_warnings cloned (warnings ctx).

(** *** Identifiers from text: [slugify] and [generateId] *)

Definition is_dash (c : ascii) : bool := Ascii.eqb c "-".

(** The class of word characters, white space and the dash: what the
    first replacement keeps. *)
Definition is_slug_input (c : ascii) : bool :=
  is_ident_char c || is_space c || is_dash c.

(** The class of white space, the underscore and the dash: what the
    second replacement joins. *)
Definition is_separator (c : ascii) : bool :=
  is_space c || Ascii.eqb c "_" || is_dash c.

(** The first replacement: every character outside the class is removed. *)
Fixpoint remove_others (s : string) : string :=
  match s with
  | EmptyString => EmptyString
  | String c rest =>
      if is_slug_input c then String c (remove_others rest)
      else remove_others rest
  end.

(** The second replacement: every maximal run of separators becomes one
    dash. [in_run] tells whether the character before was a separator. *)
Fixpoint join_separators (in_run : bool) (s : string) : string :=
  match s with
  | EmptyString => EmptyString
  | String c rest =>
      if is_separator c then
        if in_run then join_separators true rest
        else String "-" (join_separators true rest)
      else String c (join_separators false rest)
  end.

(** The third replacement: the dashes at the start and the dashes at the
    end are removed. *)
Fixpoint trim_end_dashes (s : string) : string :=
  match s with
  | EmptyString => EmptyString
  | String c rest =>
      match trim_end_dashes rest with
      | EmptyString => if is_dash c then EmptyString else String c EmptyString
      | rest' => String c rest'
      end
  end.

Definition trim_dashes (s : string) : string :=
  trim_end_dashes (drop_while is_dash s).

(** [ExecutionContext.slugify] *)
Definition slugify (text : string) : string :=
  trim_dashes (join_separators false (remove_others (toLowerCase text))).

(** [QuarkdownRenderer.generateId] *)
Definition generateId (text : string) : string :=
  trim_dashes (join_separators false (remove_others (toLowerCase text))).

End Utilities.

(** ** More statements, as predicates *)

(** A letter of ASCII or a digit. *)
Definition is_alphanumeric (c : ascii) : bool :=
  is_lower c || is_upper c || is_digit c.

(** The string is made of letters, digits and dashes, and every dash
    stands alone between two of the others. [after_dash] tells whether the
    character before was a dash or the start of the string. *)
Fixpoint dashes_inside (after_dash : bool) (s : string) : bool :=
  match s with
  | EmptyString => negb after_dash
  | String c rest =>
      if is_dash c then negb after_dash && dashes_inside true rest
      else is_alphanumeric c && dashes_inside false rest
  end.

(** An identifier is empty or made as [dashes_inside] says. *)
Definition well_formed_id (s : string) : bool :=
  match s with
  | EmptyString => true
  | _ => dashes_inside true s
  end.

(** The string is made of letters, digits and dashes, and no dash
    follows a dash. [after_dash] tells whether the character before was a
    dash. *)
Fixpoint single_dashes (after_dash : bool) (s : string) : bool :=
  match s with
  | EmptyString => true
  | String c rest =>
      if is_dash c then negb after_dash && single_dashes true rest
      else is_alphanumeric c && single_dashes false rest
  end.

(** What a rule does to the state of the tokenizer, when [advances] tells
    whether it moves the position on acceptance: it never changes the
    source, the end and the line; when it rejects, the state is as it
    was; when it accepts, the position has moved on (or has stayed), and
    it has pushed one token, or none in silent mode. *)
Definition rule_outcome (advances : bool) (rule : Parser.Rule)
  (state : Parser.StateInline) (silent : bool) : Prop :=
  let '(ok, state') := rule state silent in
  Parser.st_src state' = Parser.st_src state
  /\ Parser.st_posMax state' = Parser.st_posMax state
  /\ Parser.st_line state' = Parser.st_line state
  /\ if ok then
       (if advances
        then (Parser.st_pos state < Parser.st_pos state')%nat
        else Parser.st_pos state' = Parser.st_pos state)
       /\ (if silent
           then Parser.st_tokens state' = Parser.st_tokens state
           else exists token,
                  Parser.st_tokens state' = Parser.st_tokens state ++ [token])
     else state' = state.


Section MoreStatements.
Context {rt : JSRuntime}.

(** A warning as the expander makes them: of type style, without a line
    and without a column. *)
Definition expander_warning (w : CompileWarning) : Prop :=
  cw_type w = style /\ cw_line w = None /\ cw_column w = None.

(** What a step of the expansion may do to the context apart from writing
    variables, metadata and user functions: nothing to the scope stack,
    the named arguments and the options, and to the warnings only the
    addition of warnings of the expander at the end. *)
Definition expansion_frame (ctx ctx' : ExecutionContext) : Prop :=
  scopeStack ctx' = scopeStack ctx
  /\ namedArgs ctx' = namedArgs ctx
  /\ options ctx' = options ctx
  /\ exists added,
       warnings ctx' = warnings ctx ++ added /\ Forall expander_warning added.

Definition keeps_frame {A} (m : Exec A) : Prop :=
  forall ctx, expansion_frame ctx (snd (m ctx)).

(** An issue without a position. *)
Definition unpositioned (issue : Issue) : Prop :=
  issue_line issue = None /\ issue_column issue = None.

(** The range from character 0 to character 10 of line 0. *)
Definition start_of_document : Range :=
  {| range_start := {| pos_line := num_zero; pos_character := num_zero |};
     range_end := {| pos_line := num_zero;
                     pos_character := num_add num_zero (num_of_nat 10) |} |}.

(** The thirteen built-ins that read their first argument at once. *)
Definition reads_first_argument : list string :=
  ["add"; "multiply"; "pow"; "truncate"; "if"; "repeat"; "var"; "docname";
   "docauthor"; "doctype"; "theme"; "include"; "function"].

(** The names under which [registerStandardFunctions] registers. *)
Definition registered_names : list string :=
  ["row"; "column"; "grid"; "center"; "add"; "multiply"; "pow"; "truncate";
   "if"; "repeat"; "var"; "upper"; "lower"; "docname"; "docauthor";
   "doctype"; "theme"; "include"; "function"].

(** The context after [k] turns of the loop of [repeat] over a count of
    [n]: the index variable holds the last index. *)
Definition after_turns (k n : nat) (ctx : ExecutionContext)
  : ExecutionContext :=
  match k with
  | O => ctx
  | S _ => setVariable "_index" (VNumber (num_of_nat (n - 1))) ctx
  end.

(** The three document types. *)
Definition valid_doctype (d : string) : Prop :=
  d = "plain" \/ d = "slides" \/ d = "paged".

(** A node as the parser makes them: without children, and a call
    without arguments and body. *)
Definition flat_node (node : ASTNode) : Prop :=
  (node_children node = None \/ node_children node = Some [])
  /\ match node with
     | FunctionCallNode _ args named body _ =>
         args = [] /\ named = [] /\ body = []
     | _ => True
     end.

End MoreStatements.

(** ** More statements of the expander and the compiler *)

Section CompilerStatements.
Context {rt : JSRuntime} {host : Host}.

(** What a case function with the mapping [f] makes of a node of the
    body: a text node keeps its location and has its content mapped; any
    other node is the node itself. *)
Definition case_mapped (f : string -> string) (node node' : ASTNode) : Prop :=
  match node with
  | TextNode content location => node' = TextNode (f content) location
  | _ => node' = node
  end.








End CompilerStatements.

(** * Properties *)

Section ParserProperties.
Context {rt : JSRuntime}.

Lemma tokenToASTNode_errors (token : Parser.Token)
  (errors : list Parser.ParseError) :
  snd (Parser.tokenToASTNode token errors) = errors.
Proof.
  unfold Parser.tokenToASTNode, Parser.parseFunctionCallToken.
  repeat match goal with
         | |- context [if ?b then _ else _] => destruct b
         end; reflexivity.
Qed.

Lemma tokensToAST_loop_errors (tokens : list Parser.Token) :
  forall children errors,
    snd (Parser.tokensToAST_loop tokens children errors) = errors.
Proof.
  induction tokens as [|token rest IH]; intros children errors; simpl.
  - reflexivity.
  - pose proof (tokenToASTNode_errors token errors) as Hsnd.
    destruct (Parser.tokenToASTNode token errors) as [[node|] errors'];
      simpl in Hsnd; subst errors'; apply IH.
Qed.

Lemma tokensToAST_errors (tokens : list Parser.Token)
  (errors : list Parser.ParseError) :
  snd (Parser.tokensToAST tokens errors) = errors.
Proof.
  unfold Parser.tokensToAST.
  pose proof (tokensToAST_loop_errors tokens [] errors) as Hsnd.
  destruct (Parser.tokensToAST_loop tokens [] errors) as [children errors'].
  exact Hsnd.
Qed.

(** The [try] block of [parse] leaves the array of errors as it found it. *)
Lemma parse_try_errors (md : string -> JSError + list Parser.Token)
  (source : string) (errors : list Parser.ParseError) :
  snd (Parser.parse_try md source errors) = errors.
Proof.
  unfold Parser.parse_try.
  destruct (md (Parser.preprocessQuarkdownSyntax source)) as [error|tokens].
  - reflexivity.
  - pose proof (tokensToAST_errors tokens errors) as Hsnd.
    destruct (Parser.tokensToAST tokens errors) as [tree errors'].
    exact Hsnd.
Qed.

(** The two shapes of a parse result. *)
Lemma parse_cases (md : string -> JSError + list Parser.Token)
  (source : string) :
  (exists error,
     fst (Parser.parse_try md source []) = inl error
     /\ Parser.parse md source
        = {| Parser.ast := {| doc_children := [] |};
             Parser.errors := [syntax_error error] |})
  \/ (exists tree,
        fst (Parser.parse_try md source []) = inr tree
        /\ Parser.parse md source
           = {| Parser.ast := tree; Parser.errors := [] |}).
Proof.
  unfold Parser.parse.
  pose proof (parse_try_errors md source []) as Hsnd.
  destruct (Parser.parse_try md source []) as [[error|tree] errors];
    simpl in *; subst errors; [left|right]; eexists; split; reflexivity.
Qed.

(** Every error of a parse result is of type syntax. *)
Lemma parse_errors_syntax (md : string -> JSError + list Parser.Token)
  (source : string) :
  Forall (fun e => Parser.pe_type e = Parser.syntax)
    (Parser.errors (Parser.parse md source)).
Proof.
  destruct (parse_cases md source) as [[error [_ H]]|[tree [_ H]]];
    rewrite H; simpl; repeat constructor.
Qed.

(** C3. [parse] returns a result for every source and hands no exception
    on. When markdown-it throws on the preprocessed source, the result
    has exactly one error, of type syntax, whose message is that of the
    exception after "Parse error: ", and its tree is the document without
    children; when markdown-it returns tokens, the result is the tree
    made of them and no error. *)
Theorem C3_parse_never_throws (md : string -> JSError + list Parser.Token)
  (source : string) :
  match md (Parser.preprocessQuarkdownSyntax source) with
  | inl error =>
      Parser.parse md source
      = {| Parser.ast := {| doc_children := [] |};
           Parser.errors :=
             [ {| Parser.pe_message :=
                    "Parse error: " +:+ error_message error;
                  Parser.pe_line := None; Parser.pe_column := None;
                  Parser.pe_type := Parser.syntax |} ] |}
      /\ length (Parser.errors (Parser.parse md source)) = 1
      /\ Forall (fun e => Parser.pe_type e = Parser.syntax)
           (Parser.errors (Parser.parse md source))
  | inr tokens =>
      Parser.parse md source
      = {| Parser.ast := fst (Parser.tokensToAST tokens []);
           Parser.errors := [] |}
  end.
Proof.
  unfold Parser.parse, Parser.parse_try.
  destruct (md (Parser.preprocessQuarkdownSyntax source)) as [error|tokens].
  - simpl. repeat split. repeat constructor.
  - pose proof (tokensToAST_errors tokens []) as Hsnd.
    destruct (Parser.tokensToAST tokens []) as [tree errors].
    simpl in *. subst errors. reflexivity.
Qed.

(** A call node made by the parser has no positional argument, no named
    argument and no body. *)
Lemma tokenToASTNode_call (token : Parser.Token)
  (errors : list Parser.ParseError) (name : string)
  (args body : list ASTNode) (named : list (string * ASTNode))
  (loc : option SourceLocation) :
  fst (Parser.tokenToASTNode token errors)
  = Some (FunctionCallNode name args named body loc) ->
  args = [] /\ named = [] /\ body = [].
Proof.
  unfold Parser.tokenToASTNode, Parser.parseFunctionCallToken,
    Parser.parseImageToken.
  repeat match goal with
         | |- context [if ?b then _ else _] => destruct b
         end; simpl; intros H; inversion H; auto.
Qed.

End ParserProperties.

Section ExpanderProperties.
Context {rt : JSRuntime} {host : Host}.

Lemma hasVariable_false_undefined (name : string) (ctx : ExecutionContext) :
  hasVariable name ctx = false -> getVariable name ctx = VUndefined.
Proof.
  unfold hasVariable, getVariable, map_has, map_get.
  destruct (last (scopeStack ctx)) as [scope|].
  - destruct (scope !! name); [discriminate|].
    destruct (variables ctx !! name); [discriminate|reflexivity].
  - destruct (variables ctx !! name); [discriminate|reflexivity].
Qed.

Lemma hasFunction_false_stdlib (name : string) (ctx : ExecutionContext) :
  hasFunction name ctx = false -> stdlib_hasFunction name = false.
Proof.
  unfold hasFunction. intros H. apply orb_false_iff in H. tauto.
Qed.

(** One turn of the loop of [executeDocument]. *)
Lemma executeNodes_cons (fuel : nat) (node : ASTNode)
  (rest executed : list ASTNode) (ctx : ExecutionContext) :
  executeNodes fuel (node :: rest) executed ctx
  = match executeNode fuel node ctx with
    | (Normal result, ctx') =>
        executeNodes fuel rest (executed ++ splice result) ctx'
    | (Throw e, ctx') => (Throw e, ctx')
    | (Diverge, ctx') => (Diverge, ctx')
    end.
Proof. reflexivity. Qed.

(** A container is executed by the loop of [executeDocument] on its
    children. *)
Lemma executeNode_paragraph (fuel : nat) (children : list ASTNode)
  (loc : option SourceLocation) (ctx : ExecutionContext) :
  executeNode fuel (ParagraphNode children loc) ctx
  = match executeNodes fuel children [] ctx with
    | (Normal processed, ctx') =>
        (Normal (RNode (ParagraphNode processed loc)), ctx')
    | (Throw e, ctx') => (Throw e, ctx')
    | (Diverge, ctx') => (Diverge, ctx')
    end.
Proof.
  simpl. unfold ebind at 1.
  match goal with
  | |- match ?loop children [] ctx with _ => _ end = _ =>
      assert (Hloop : forall cs acc c, loop cs acc c = executeNodes fuel cs acc c)
  end.
  { induction cs as [|child rest IH]; intros acc c; [reflexivity|].
    simpl. unfold ebind. destruct (executeNode fuel child c) as [[r|e|] c'];
      try reflexivity. apply IH. }
  rewrite Hloop. destruct (executeNodes fuel children [] ctx) as [[cs|e|] c'];
    reflexivity.
Qed.

(** [executeDocument] is its loop over the children of the document. *)
Lemma executeDocument_nodes (fuel : nat) (nodes : list ASTNode)
  (ctx : ExecutionContext) :
  executeDocument fuel {| doc_children := nodes |} ctx
  = match executeNodes fuel nodes [] ctx with
    | (Normal executed, ctx') => (Normal {| doc_children := executed |}, ctx')
    | (Throw e, ctx') => (Throw e, ctx')
    | (Diverge, ctx') => (Diverge, ctx')
    end.
Proof.
  unfold executeDocument, ebind. simpl.
  destruct (executeNodes fuel nodes [] ctx) as [[executed|e|] ctx'];
    reflexivity.
Qed.

(** A call of a name that is neither a built-in nor a user function, when
    the expander executes it, records one style warning and yields
    nothing; a reference to a name that is not bound records one style
    warning and yields the text node of the name in double braces. *)
Lemma unknown_names_at_executed_nodes (fuel : nat) (ctx : ExecutionContext)
  (fname vname : string) (args body : list ASTNode)
  (named : list (string * ASTNode)) (loc loc' : option SourceLocation) :
  hasFunction fname ctx = false ->
  hasVariable vname ctx = false ->
  executeNode fuel (FunctionCallNode fname args named body loc) ctx
  = (Normal RNull, addWarning (unknown_function_warning fname) ctx)
  /\ executeNode fuel (VariableNode vname loc') ctx
     = (Normal (RNode (TextNode ("{{" +:+ vname +:+ "}}") None)),
        addWarning (undefined_variable_warning vname) ctx).
Proof.
  intros Hf Hv. split.
  - simpl. unfold executeFunctionCall.
    rewrite (hasFunction_false_stdlib Hf), Hf. reflexivity.
  - simpl. unfold ebind, resolveVariable.
    rewrite (hasVariable_false_undefined Hv). reflexivity.
Qed.

(** C4. The expander executes the children of the document and of
    paragraphs, headings, lists and blockquotes, and nothing else. A call
    and a reference inside a list item, inside an emphasis, or in the body
    that [if] returns pass through the expansion as they stand, whatever
    their names: no warning is recorded for them and they stay in the
    tree. The same two nodes as children of the document, when the names
    are unknown, give one warning each, nothing for the call and the
    placeholder for the reference. *)
Theorem C4_nested_names_get_no_warning (fuel : nat) (ctx : ExecutionContext)
  (fname vname : string) (args body : list ASTNode)
  (named : list (string * ASTNode)) (loc loc' : option SourceLocation) :
  let call := FunctionCallNode fname args named body loc in
  let reference := VariableNode vname loc' in
  let in_item := ListNode false [ListItemNode [call; reference] None] None in
  let in_emphasis :=
    ParagraphNode [EmphasisNode false [call; reference] None] None in
  let in_if :=
    FunctionCallNode "if" [TextNode "true" None] [] [call; reference] None in
  executeDocument fuel {| doc_children := [in_item] |} ctx
  = (Normal {| doc_children := [in_item] |}, ctx)
  /\ executeDocument fuel {| doc_children := [in_emphasis] |} ctx
     = (Normal {| doc_children := [in_emphasis] |}, ctx)
  /\ executeDocument fuel {| doc_children := [in_if] |} ctx
     = (Normal {| doc_children := [call; reference] |}, ctx)
  /\ (hasFunction fname ctx = false ->
      hasVariable vname ctx = false ->
      executeDocument fuel {| doc_children := [call; reference] |} ctx
      = (Normal {| doc_children := [TextNode ("{{" +:+ vname +:+ "}}") None] |},
         addWarning (undefined_variable_warning vname)
           (addWarning (unknown_function_warning fname) ctx))).
Proof.
  intros call reference in_item in_emphasis in_if.
  split; [reflexivity|]. split; [reflexivity|]. split.
  - rewrite executeDocument_nodes, executeNodes_cons.
    subst in_if. cbn [executeNode]. unfold executeFunctionCall.
    change (stdlib_hasFunction "if") with true. cbv iota.
    change (stdlib_executeFunction fuel "if" [TextNode "true" None]
              [call; reference] ctx)
      with (if_ fuel [TextNode "true" None] [call; reference] ctx).
    reflexivity.
  - intros Hf Hv.
    assert (Hv' : hasVariable vname
                    (addWarning (unknown_function_warning fname) ctx) = false)
      by exact Hv.
    assert (Hf' : hasFunction fname
                    (addWarning (unknown_function_warning fname) ctx) = false)
      by exact Hf.
    destruct (unknown_names_at_executed_nodes fuel args body named loc loc'
                Hf Hv) as [Hcall _].
    destruct (unknown_names_at_executed_nodes fuel args body named loc loc'
                Hf' Hv') as [_ Href].
    subst call reference.
    rewrite executeDocument_nodes, executeNodes_cons, Hcall.
    cbn [splice app]. rewrite executeNodes_cons, Href. reflexivity.
Qed.

Lemma evaluateCondition_truth (condition : ASTNode) (ctx : ExecutionContext) :
  evaluateCondition (Some condition) ctx
  = (Normal (condition_truth (getTextFromNode condition) ctx), ctx).
Proof.
  unfold evaluateCondition, ebind, elift, eread, eret, getTextFromNode_ref.
  simpl. unfold condition_truth.
  destruct (getTextFromNode condition) as [|c text]; [reflexivity|].
  destruct c as [[] [] [] [] [] [] [] []]; simpl; try reflexivity;
    try (destruct (getVariable text ctx); reflexivity);
    repeat match goal with
           | |- context [if ?b then _ else _] => destruct b
           end; reflexivity.
Qed.

(** C5, amended. [if] yields its body when the condition counts as true
    and nothing otherwise, without an error and without a change of the
    context. A condition with a leading dot counts as the value of the
    variable counts in JavaScript: not when it is undefined, false, zero,
    NaN or the empty string, and so the strings "true" and "false" both
    count. Then the two literals, then a number, which counts when it is
    not zero; any other text does not count. *)
Theorem C5_if_follows_condition_truth (fuel : nat) (condition : ASTNode)
  (body : list ASTNode) (loc : option SourceLocation)
  (ctx : ExecutionContext) :
  if_ fuel [condition] body ctx
  = (Normal (if condition_truth (getTextFromNode condition) ctx
             then RNodes body else RNull), ctx)
  /\ if_ fuel [TextNode ".flag" loc] body ctx
     = (Normal match getVariable "flag" ctx with
               | VUndefined => RNull
               | VBoolean b => if b then RNodes body else RNull
               | VNumber n =>
                   if negb (num_is_zero n) && negb (isNaN n)
                   then RNodes body else RNull
               | VString s => if String.eqb s "" then RNull else RNodes body
               end, ctx).
Proof.
  assert (H : forall c, if_ fuel [c] body ctx
              = (Normal (if condition_truth (getTextFromNode c) ctx
                         then RNodes body else RNull), ctx)).
  { intros c. unfold if_, ebind. simpl.
    rewrite evaluateCondition_truth. reflexivity. }
  split; [apply H|].
  rewrite H. simpl.
  destruct (getVariable "flag" ctx) as [|b|n|s]; try reflexivity.
  destruct (String.eqb s ""); reflexivity.
Qed.

Lemma getVariable_setVariable (name : string) (value : JSValue)
  (ctx : ExecutionContext) :
  not_shadowed name ctx ->
  getVariable name (setVariable name value ctx) = value.
Proof.
  unfold not_shadowed, getVariable, setVariable, map_has, map_get. simpl.
  destruct (last (scopeStack ctx)) as [scope|].
  - intros ->. now rewrite lookup_insert_eq.
  - intros _. now rewrite lookup_insert_eq.
Qed.

(** C6, amended. [var] stores the text of its second argument, or the
    empty string when there is none, under the text of its first argument
    in the global variables, whatever the scope stack holds, and returns
    nothing; the scope stack is as it was. A reference to the name that
    follows becomes the text node of the value when the current scope
    does not bind the name; when it does, the reference still sees the
    value of the scope. *)
Theorem C6_var_stores_in_global_variables (fuel : nat) (nameNode : ASTNode)
  (more body : list ASTNode) (ctx : ExecutionContext) :
  let name := getTextFromNode nameNode in
  let value := match more with v :: _ => getTextFromNode v | [] => "" end in
  let ctx' := setVariable name (VString value) ctx in
  var fuel (nameNode :: more) body ctx = (Normal RNull, ctx')
  /\ variables ctx' !! name = Some (VString value)
  /\ scopeStack ctx' = scopeStack ctx
  /\ (not_shadowed name ctx ->
      resolveVariable name ctx' = (Normal (TextNode value None), ctx'))
  /\ (forall scope bound,
        last (scopeStack ctx) = Some scope ->
        scope !! name = Some bound ->
        getVariable name ctx' = bound).
Proof.
  intros name value ctx'. repeat split.
  - unfold var, ebind, elift, eupdate, eret, getTextFromNode_ref. simpl.
    destruct more as [|v more']; reflexivity.
  - apply lookup_insert_eq.
  - intros Hscope. unfold resolveVariable.
    assert (Hget : getVariable name ctx' = VString value).
    { apply getVariable_setVariable. exact Hscope. }
    rewrite Hget. reflexivity.
  - intros scope bound Hlast Hbound.
    unfold getVariable, map_has, map_get. subst ctx'. simpl.
    rewrite Hlast, Hbound. reflexivity.
Qed.

(** The loop of [repeat] appends the body as it stands once per turn and
    never executes it; it records no warning, and when it has turned at
    all, [_index] is left at the index of the last turn. *)
Lemma repeat_loop_copies (fuel : nat) :
  forall (i : nat) (count : number) (body result r : list ASTNode)
         (ctx ctx' : ExecutionContext),
    repeat_loop fuel i count body result ctx = (Normal r, ctx') ->
    exists n : nat,
      r = result ++ List.concat (replicate n body)
      /\ warnings ctx' = warnings ctx
      /\ (n = 0%nat -> ctx' = ctx)
      /\ ((0 < n)%nat ->
          variables ctx' !! "_index"
          = Some (VNumber (num_of_nat (i + n - 1)))).
Proof.
  induction fuel as [|fuel IH]; intros i count body result r ctx ctx' Hrun;
    simpl in Hrun.
  - discriminate.
  - destruct (num_ltb (num_of_nat i) count).
    + unfold ebind, eupdate in Hrun. simpl in Hrun.
      apply IH in Hrun as [n [Hr [Hw [Hzero Hpos]]]].
      exists (S n). repeat split.
      * rewrite Hr. simpl. now rewrite app_assoc.
      * exact Hw.
      * discriminate.
      * intros _. destruct n as [|n].
        -- rewrite (Hzero eq_refl). simpl.
           rewrite lookup_insert_eq. do 3 f_equal. lia.
        -- rewrite Hpos by lia. do 3 f_equal. lia.
    + injection Hrun as <- <-. exists 0%nat. simpl.
      rewrite app_nil_r. repeat split. intros H. inversion H.
Qed.

End ExpanderProperties.

(** ** The named arguments of the context during the expansion *)

Section NamedArguments.
Context {rt : JSRuntime} {host : Host}.

Lemma keeps_eret {A} (a : A) : keeps_named (eret a).
Proof. intros ctx. reflexivity. Qed.

Lemma keeps_elift {A} (o : Outcome A) : keeps_named (elift o).
Proof. intros ctx. reflexivity. Qed.

Lemma keeps_eread {A} (f : ExecutionContext -> A) : keeps_named (eread f).
Proof. intros ctx. reflexivity. Qed.

Lemma keeps_eupdate (f : ExecutionContext -> ExecutionContext) :
  (forall ctx, namedArgs (f ctx) = namedArgs ctx) -> keeps_named (eupdate f).
Proof. intros H ctx. apply H. Qed.

Lemma keeps_ebind {A B} (m : Exec A) (k : A -> Exec B) :
  keeps_named m -> (forall a, keeps_named (k a)) -> keeps_named (ebind m k).
Proof.
  intros Hm Hk ctx. unfold ebind. specialize (Hm ctx).
  destruct (m ctx) as [[a|e|] ctx']; simpl in *; try exact Hm.
  rewrite Hk. exact Hm.
Qed.

Lemma keeps_if {A} (b : bool) (m1 m2 : Exec A) :
  keeps_named m1 -> keeps_named m2 -> keeps_named (if b then m1 else m2).
Proof. destruct b; auto. Qed.

Ltac keeps :=
  repeat first
    [ apply keeps_eret | apply keeps_elift | apply keeps_eread
    | apply keeps_eupdate; intros; reflexivity
    | apply keeps_ebind; [|intros]
    | apply keeps_if
    | match goal with |- keeps_named (match ?x with _ => _ end) => destruct x end ].

Lemma keeps_evaluateCondition node : keeps_named (evaluateCondition node).
Proof. unfold evaluateCondition. keeps. Qed.

Lemma keeps_repeat_loop fuel : forall i count body result,
  keeps_named (repeat_loop fuel i count body result).
Proof.
  induction fuel as [|fuel IH]; intros; simpl; keeps. apply IH.
Qed.

Lemma keeps_builtin name impl :
  functions !! name = Some impl ->
  forall fuel args body, keeps_named (impl fuel args body).
Proof.
  cbv [functions List.fold_left register fst snd].
  intros H fuel args body.
  repeat (rewrite lookup_insert_Some in H; destruct H as [[_ <-]|[_ H]];
          [|]).
  all: try solve [cbv [row column grid center add multiply pow truncate var
                       upper lower docname docauthor doctype theme include
                       function if_ repeat_];
                  keeps;
                  first [apply keeps_evaluateCondition
                        |apply keeps_repeat_loop]].
  rewrite lookup_empty in H. discriminate.
Qed.

Lemma namedArgs_setScopedVariable name value ctx :
  namedArgs (setScopedVariable name value ctx) = namedArgs ctx.
Proof.
  unfold setScopedVariable. destruct (last (scopeStack ctx)); reflexivity.
Qed.

Lemma namedArgs_bind_parameters parameters : forall args ctx,
  namedArgs (bind_parameters parameters args ctx) = namedArgs ctx.
Proof.
  induction parameters as [|p ps IH]; intros [|a args] ctx; simpl;
    try reflexivity.
  rewrite IH. apply namedArgs_setScopedVariable.
Qed.

Lemma namedArgs_bind_named entries named : forall ctx,
  namedArgs (bind_named entries named ctx) = namedArgs ctx.
Proof.
  induction entries as [|[n v] rest IH]; intros ctx; simpl; [reflexivity|].
  rewrite IH. destruct named as [l|]; [|reflexivity].
  destruct (includes l n); [apply namedArgs_setScopedVariable|reflexivity].
Qed.

Lemma keeps_executeFunction fuel name args body :
  keeps_named (executeFunction fuel name args body).
Proof.
  intros ctx. unfold executeFunction.
  destruct (userFunctions ctx !! name) as [f|].
  - unfold executeUserFunction. simpl.
    rewrite namedArgs_bind_named, namedArgs_bind_parameters. reflexivity.
  - destruct (stdlib_hasFunction name); [|reflexivity].
    unfold stdlib_executeFunction.
    destruct (functions !! name) as [impl|] eqn:Himpl; [|reflexivity].
    apply (keeps_builtin Himpl).
Qed.

Lemma keeps_executeFunctionCall fuel name args body :
  keeps_named (executeFunctionCall fuel name args body).
Proof.
  intros ctx. unfold executeFunctionCall.
  destruct (stdlib_hasFunction name).
  - unfold stdlib_executeFunction.
    destruct (functions !! name) as [impl|] eqn:Himpl; [|reflexivity].
    apply (keeps_builtin Himpl).
  - destruct (hasFunction name ctx); [apply keeps_executeFunction|reflexivity].
Qed.

Lemma keeps_resolveVariable name : keeps_named (resolveVariable name).
Proof.
  intros ctx. unfold resolveVariable.
  destruct (getVariable name ctx); reflexivity.
Qed.

Lemma keeps_executeNode fuel : forall node, keeps_named (executeNode fuel node).
Proof.
  fix IH 1. intros node.
  destruct node; simpl; try apply keeps_eret;
    try apply keeps_executeFunctionCall;
    try (apply keeps_ebind; [apply keeps_resolveVariable|intros; apply keeps_eret]).
  all: apply keeps_ebind; [|intros; apply keeps_eret].
  all: generalize (@nil ASTNode).
  all: induction children as [|child rest IHrest]; intros processed;
    [apply keeps_eret|].
  all: apply keeps_ebind; [apply IH|intros; apply IHrest].
Qed.

Lemma keeps_executeNodes fuel : forall nodes executed,
  keeps_named (executeNodes fuel nodes executed).
Proof.
  induction nodes as [|node rest IH]; intros executed; simpl.
  - apply keeps_eret.
  - apply keeps_ebind; [apply keeps_executeNode|intros; apply IH].
Qed.

(** Throughout the expansion of a document in the context of a fresh
    compilation, the context holds no named argument. *)
Lemma executeDocument_no_named_arguments (fuel : nat) (tree : DocumentNode)
  (options : CompileOptions) :
  namedArgs (snd (executeDocument fuel tree (new_ExecutionContext options)))
  = [].
Proof.
  unfold executeDocument.
  rewrite (keeps_ebind (keeps_executeNodes fuel (doc_children tree) [])
             (fun a => keeps_eret _)).
  reflexivity.
Qed.

(** Without named arguments in the context, [add] adds 0 to its first
    argument, whatever the call node says after [to]. *)
Lemma add_without_named_arguments (fuel : nat) (first : ASTNode)
  (more body : list ASTNode) (named : list (string * ASTNode))
  (loc : option SourceLocation) (ctx : ExecutionContext) :
  namedArgs ctx = [] ->
  executeNode fuel (FunctionCallNode "add" (first :: more) named body loc) ctx
  = (Normal
       (RNode
          (TextNode
             (num_toString
                (num_add
                   (num_or (if isNaN (parseFloat (getTextFromNode first))
                            then None
                            else Some (parseFloat (getTextFromNode first)))
                      num_zero)
                   num_zero))
             None)), ctx).
Proof.
  intros Hnamed. simpl. unfold executeFunctionCall.
  change (stdlib_hasFunction "add") with true. cbv iota.
  change (stdlib_executeFunction fuel "add" (first :: more) body ctx)
    with (add fuel (first :: more) body ctx).
  unfold add, ebind, elift, eread, eret, getNamedArgs, getNumberFromNode,
    getTextFromNode_ref. simpl.
  rewrite Hnamed. reflexivity.
Qed.

End NamedArguments.

Section CompilerProperties.
Context {rt : JSRuntime} {host : Host}.









Lemma diagnostic_of_spec (issue : Issue) :
  diagnostic_spec issue (diagnostic_of issue).
Proof.
  unfold diagnostic_spec, syntax_or_semantic, runtime_or_warning.
  destruct issue as [[message line column []]|[message line column []]];
    simpl; (split; [split|split; [|repeat split]]).
  all: try (intros _; eexists; split; [reflexivity|]; simpl; tauto).
  all: try reflexivity.
  all: try discriminate.
  all: try (intros [[e [He Ht]]|[w Hw]]; [inversion He; subst e|]; discriminate).
  all: try (intros [e [He [Ht|Ht]]]; inversion He; subst e; discriminate).
  all: try (intros [e [He _]]; discriminate).
Qed.




End CompilerProperties.

(** ** The rule chain of the parser *)

Section RuleChain.
Import Parser.

(** Whatever [parseVariable] accepts, [parseFunctionCall] accepts as well:
    it does not look at what follows the identifier. *)
Lemma parseVariable_shadowed (state : StateInline) (silent : bool) :
  fst (parseVariable state silent) = true ->
  fst (parseFunctionCall state silent) = true.
Proof.
  unfold parseVariable, parseFunctionCall.
  destruct (negb (char_is (charAt (st_src state) (st_pos state)) "."));
    [discriminate|].
  destruct (match_identifier _); [reflexivity|discriminate].
Qed.

(** The chain after [setupQuarkdownRules]: the rule of function calls is
    the first one, in front of the rule of variables. *)
Lemma setupQuarkdownRules_chain (builtin : string -> Rule) :
  option_map (List.map fst)
    (setupQuarkdownRules (markdown_it_inline_rules builtin))
  = Some ["quarkdown_function"; "quarkdown_variable"; "quarkdown_math";
          "text"; "linkify"; "newline"; "escape"; "backticks";
          "strikethrough"; "emphasis"; "link"; "quarkdown_image"; "image";
          "autolink"; "html_inline"; "entity"].
Proof. reflexivity. Qed.

(** For every state at a dot followed by an identifier, the step of the
    tokenizer is the rule of function calls, which accepts. *)
Lemma dot_identifier_is_call (builtin : string -> Rule) (state : StateInline)
  (name : string) (rules : list (string * Rule)) :
  char_is (charAt (st_src state) (st_pos state)) "." = true ->
  match_identifier (slice_from (st_pos state + 1) (st_src state)) = Some name ->
  setupQuarkdownRules (markdown_it_inline_rules builtin) = Some rules ->
  inline_step rules state = parseFunctionCall state false
  /\ fst (parseFunctionCall state false) = true.
Proof.
  intros Hdot Hname Hrules. injection Hrules as <-.
  assert (Hcall : fst (parseFunctionCall state false) = true).
  { unfold parseFunctionCall. rewrite Hdot, Hname. reflexivity. }
  split; [|exact Hcall].
  cbn [inline_step]. destruct (parseFunctionCall state false) as [ok state'].
  simpl in Hcall. subst ok. reflexivity.
Qed.

(** C1 (defect of the code). A dot and an identifier at the end of the
    input, with no brace and no named parameter after it, is made a
    function call by the rule chain: the rule of function calls comes
    first and accepts every dot and identifier. The rule of variables,
    which would accept this input and make a variable reference of it, is
    never asked. *)
Theorem C1_reference_is_parsed_as_call (builtin : string -> Rule) :
  classify builtin ".x" = Some "quarkdown_function_open"
  /\ parseVariable
       {| st_src := ".x"; st_pos := 0; st_posMax := 2; st_line := 0;
          st_tokens := [] |} false
     = (true,
        {| st_src := ".x"; st_pos := 2; st_posMax := 2; st_line := 0;
           st_tokens :=
             [ {| tok_type := "quarkdown_variable"; tok_tag := "";
                  tok_nesting := 0; tok_attrs := [];
                  tok_map := Some (0, 0); tok_content := "x";
                  tok_markup := ""; tok_info := "" |} ] |}).
Proof. split; reflexivity. Qed.

End RuleChain.

(** ** The pipeline on examples *)

Section OnExamples.
Import SafeIntegers Examples.

(** The expander never looks at the named arguments of a call node. *)
Lemma executeNode_ignores_named_arguments {rt : JSRuntime} {host : Host}
  (fuel : nat) (name : string) (args body : list ASTNode)
  (named : list (string * ASTNode)) (loc : option SourceLocation) :
  executeNode fuel (FunctionCallNode name args named body loc)
  = executeNode fuel (FunctionCallNode name args [] body loc).
Proof. reflexivity. Qed.

(** The three built-ins do their arithmetic when the context holds the
    named argument. *)
Lemma builtins_with_named_arguments (fuel : nat) :
  fst (add fuel [text "5"] [] with_to_3) = Normal (RNode (text "8"))
  /\ fst (multiply fuel [text "6"] []
            (setNamedArgs [("by", text "3")] fresh))
     = Normal (RNode (text "18"))
  /\ fst (pow fuel [text "2"] [] with_to_3) = Normal (RNode (text "8")).
Proof. repeat split; reflexivity. Qed.

(** C2 (defect of the code). The call node of [.add {5} to:{3}], executed
    in the context of a fresh compilation, yields the text "5" and not
    "8": [executeFunctionCall] hands the positional arguments and the body
    to the library and leaves the named arguments of the node behind, so
    that [add] finds no [to] in the context and adds 0. *)
Theorem C2_add_ignores_named_argument (fuel : nat) :
  fst (executeNode fuel add_5_to_3 fresh) = Normal (RNode (text "5"))
  /\ getNamedArgs (snd (executeNode fuel add_5_to_3 fresh)) = []
  /\ executeNode fuel add_5_to_3
     = executeNode fuel (FunctionCallNode "add" [text "5"] [] [] None).
Proof. repeat split; reflexivity. Qed.

(** C7 (defect of the code). [.repeat {3}] with a body that refers to
    [_index]: the document after expansion holds the reference three
    times, unresolved; the loop has set [_index] to 0, 1 and 2 without
    evaluating the body, and 2 is what is left of it. No warning tells of
    the references. *)
Theorem C7_repeat_does_not_evaluate_body (fuel : nat) :
  let run := executeDocument (4 + fuel) {| doc_children := [repeat_3_index] |}
               fresh in
  fst run
  = Normal {| doc_children := [VariableNode "_index" None;
                               VariableNode "_index" None;
                               VariableNode "_index" None] |}
  /\ getVariable "_index" (snd run) = VNumber (Int 2)
  /\ warnings (snd run) = [].
Proof. repeat split; reflexivity. Qed.

(** Whatever the [document] of the host, a width that is not empty is in
    the markup of the image as it was given. *)
Lemma renderImage_width_verbatim (innerHTML : string -> string)
  (src width : string) :
  width <> "" ->
  Renderer.renderImage (Some innerHTML) src None None (Some width) None
  = Normal ("<img src=" +:+ dq +:+ innerHTML src +:+ dq
            +:+ (" style=" +:+ dq +:+ ("width: " +:+ width) +:+ dq)
            +:+ ">").
Proof.
  intros Hwidth. unfold Renderer.renderImage, Renderer.escaped_attribute.
  simpl. destruct (String.eqb_spec width ""); [contradiction|].
  simpl. reflexivity.
Qed.

(** C8 (defect of the code). The width of an image goes into the [style]
    attribute as it is, for every [document] of the host; and with the
    serialisation of the HTML standard a double quote in the alternative
    text ends the [alt] attribute, since [escapeHtml] replaces neither
    kind of quote. *)
Theorem C8_renderer_emits_unescaped_content (innerHTML : string -> string) :
  Renderer.renderImage (Some innerHTML) "a.png" None None (Some breakout) None
  = Normal ("<img src=" +:+ dq +:+ innerHTML "a.png" +:+ dq
            +:+ " style=" +:+ dq +:+ "width: " +:+ breakout +:+ dq +:+ ">")
  /\ Renderer.renderImage (Some Renderer.serialize_text) "a.png"
       (Some (dq +:+ " onerror=" +:+ dq +:+ "alert(1)")) None None None
     = Normal ("<img src=" +:+ dq +:+ "a.png" +:+ dq
               +:+ " alt=" +:+ dq +:+ dq +:+ " onerror=" +:+ dq
               +:+ "alert(1)" +:+ dq +:+ ">")
  /\ Renderer.renderText (Some Renderer.serialize_text) (dq +:+ "it's" +:+ dq)
     = Normal (dq +:+ "it's" +:+ dq).
Proof. repeat split; reflexivity. Qed.

(** C4, at an input: the call of [nonexistent] and the reference to
    [name] in the context of a fresh compilation, first inside a list
    item, then in the body of [if], then as children of the document. *)
Lemma C4_witness :
  let call := FunctionCallNode "nonexistent" [text "arg"] [] [] None in
  let reference := VariableNode "name" None in
  let in_item := ListNode false [ListItemNode [call; reference] None] None in
  let in_if :=
    FunctionCallNode "if" [text "true"] [] [call; reference] None in
  hasFunction "nonexistent" fresh = false
  /\ hasVariable "name" fresh = false
  /\ executeDocument 0 {| doc_children := [in_item] |} fresh
     = (Normal {| doc_children := [in_item] |}, fresh)
  /\ executeDocument 0 {| doc_children := [in_if] |} fresh
     = (Normal {| doc_children := [call; reference] |}, fresh)
  /\ warnings fresh = []
  /\ warnings (snd (executeDocument 0 {| doc_children := [call; reference] |}
                      fresh))
     = [unknown_function_warning "nonexistent";
        undefined_variable_warning "name"].
Proof.
  cbv zeta.
  assert (Hf : hasFunction "nonexistent" fresh = false) by reflexivity.
  assert (Hv : hasVariable "name" fresh = false) by reflexivity.
  pose proof (@C4_nested_names_get_no_warning _ _ 0 fresh "nonexistent"
                "name" [text "arg"] [] [] None None)
    as (Hitem & _ & Hif & Htop).
  split; [exact Hf|]. split; [exact Hv|]. split; [exact Hitem|].
  split; [exact Hif|]. split; [reflexivity|].
  rewrite (Htop Hf Hv). reflexivity.
Defined.

(** C5 as stated fails: with [flag] set to the string "false" the body of
    [.if {.flag}] is in the output, and the condition [hello], a string
    that is not empty, does not count as true. *)
Lemma C5_counterexample :
  fst (executeNode 0 (if_flag [text "shown"])
         (setVariable "flag" (VString "false") fresh))
  = Normal (RNodes [text "shown"])
  /\ fst (executeNode 0
            (FunctionCallNode "if" [text "hello"] [] [text "shown"] None)
            fresh)
     = Normal RNull.
Proof. split; reflexivity. Qed.

(** C6 as stated fails: with a scope frame active, [.var {x} {5}] leaves
    the frame empty and writes to the global variables; and when the
    frame binds [x], the reference that follows shows the value of the
    frame, not "5". *)
Lemma C6_counterexample :
  let ctx := snd (executeNode 0 var_x_5 (pushScope fresh)) in
  last (scopeStack (pushScope fresh)) = Some ∅
  /\ last (scopeStack ctx) = Some ∅
  /\ variables ctx !! "x" = Some (VString "5")
  /\ fst (executeNodes 0 [var_x_5; VariableNode "x" None] []
            (setScopedVariable "x" (VString "old") (pushScope fresh)))
     = Normal [text "old"].
Proof. repeat split; reflexivity. Qed.

(** C6, at an input: [.var {x} {5}] and then a reference to [x]. *)
Lemma C6_witness :
  not_shadowed "x" fresh
  /\ var 0 [text "x"; text "5"] [] fresh
     = (Normal RNull, setVariable "x" (VString "5") fresh)
  /\ resolveVariable "x" (setVariable "x" (VString "5") fresh)
     = (Normal (text "5"), setVariable "x" (VString "5") fresh)
  /\ Renderer.renderText (Some Renderer.serialize_text) "5" = Normal "5".
Proof.
  assert (Hs : not_shadowed "x" fresh) by exact I.
  pose proof (@C6_var_stores_in_global_variables _ 0 (text "x") [text "5"]
                [] fresh) as [Hvar [_ [_ [Href _]]]].
  split; [exact Hs|]. split; [exact Hvar|].
  split; [exact (Href Hs)|reflexivity].
Defined.



(** The two paths of [parse]: a tokenizer that throws, and one that hands
    out the tokens of a paragraph. *)
Example parse_failure_example :
  Parser.parse md_throws "# Title"
  = {| Parser.ast := {| doc_children := [] |};
       Parser.errors := [syntax_error (Error "Rule not found: text")] |}.
Proof. reflexivity. Qed.

Example parse_success_example :
  Parser.parse md_paragraph "Hello"
  = {| Parser.ast :=
         {| doc_children :=
              [TextNode "Hello"
                 (Some {| loc_line := 0; loc_column := 0;
                          loc_offset := 0 |})] |};
       Parser.errors := [] |}.
Proof. reflexivity. Qed.

(** The diagnostics of a compilation that fails in the renderer: the one
    runtime error, as a warning at the start of the document. *)
Example getDiagnostics_example :
  getDiagnostics (host := paragraph_host) 0 "Hello"
  = Some [ {| d_range :=
                {| range_start := {| pos_line := Int 0;
                                     pos_character := Int 0 |};
                   range_end := {| pos_line := Int 0;
                                   pos_character := Int 10 |} |};
              d_message := "Compilation failed: document is not defined";
              d_severity := 2;
              d_source := "quarkdown" |} ].
Proof. reflexivity. Qed.

End OnExamples.

(** ** The scope stack *)

Section Scopes.
Context {rt : JSRuntime} {host : Host}.

Lemma set_scopeStack_same (ctx : ExecutionContext) :
  set_scopeStack ctx (scopeStack ctx) = ctx.
Proof. destruct ctx; reflexivity. Qed.

Lemma setScopedVariable_top (name : string) (value : JSValue)
  (ctx : ExecutionContext) (below : list (gmap string JSValue))
  (top : gmap string JSValue) :
  setScopedVariable name value (set_scopeStack ctx (below ++ [top]))
  = set_scopeStack ctx (below ++ [<[name := value]> top]).
Proof.
  unfold setScopedVariable. simpl.
  rewrite last_snoc, removelast_last. reflexivity.
Qed.

Lemma bind_parameters_top (parameters : list string) :
  forall (args : list ASTNode) (ctx : ExecutionContext)
         (below : list (gmap string JSValue)) (top : gmap string JSValue),
  exists top',
    bind_parameters parameters args (set_scopeStack ctx (below ++ [top]))
    = set_scopeStack ctx (below ++ [top']).
Proof.
  induction parameters as [|p ps IH]; intros [|a args] ctx below top; simpl;
    try (eexists; reflexivity).
  rewrite setScopedVariable_top. apply IH.
Qed.

Lemma bind_named_top (entries : list (string * ASTNode))
  (named : option (list string)) :
  forall (ctx : ExecutionContext) (below : list (gmap string JSValue))
         (top : gmap string JSValue),
  exists top',
    bind_named entries named (set_scopeStack ctx (below ++ [top]))
    = set_scopeStack ctx (below ++ [top']).
Proof.
  induction entries as [|[n v] rest IH]; intros ctx below top; simpl.
  - eexists; reflexivity.
  - destruct named as [l|]; [|apply IH].
    destruct (includes l n); [|apply IH].
    rewrite setScopedVariable_top. apply IH.
Qed.

(** The scope that [executeUserFunction] pushes is popped again, and the
    result is the body of the definition. *)
Lemma executeUserFunction_unchanged (func : UserDefinedFunction)
  (args body : list ASTNode) (ctx : ExecutionContext) :
  executeUserFunction func args body ctx = (udf_body func, ctx).
Proof.
  unfold executeUserFunction, pushScope.
  destruct (bind_parameters_top (udf_parameters func) args ctx
              (scopeStack ctx) ∅) as [top1 H1].
  rewrite H1.
  change (namedArgs (set_scopeStack ctx (scopeStack ctx ++ [top1])))
    with (namedArgs ctx).
  destruct (bind_named_top (namedArgs ctx) (udf_namedParameters func) ctx
              (scopeStack ctx) top1) as [top2 H2].
  rewrite H2. unfold popScope, set_scopeStack. simpl.
  rewrite removelast_last. destruct ctx; reflexivity.
Qed.

(** X1. A binding made in a pushed scope is what a reference sees while
    the scope is the current one; it does not touch the global variables;
    it is out of sight as soon as a further scope is pushed, since only
    the current scope is searched before the global variables; and it is
    gone when the scope is popped, which gives the context back. *)
Theorem scoped_binding_lifetime (name : string) (value : JSValue)
  (ctx : ExecutionContext) :
  let inner := setScopedVariable name value (pushScope ctx) in
  getVariable name inner = value
  /\ hasVariable name inner = true
  /\ variables inner = variables ctx
  /\ getVariable name (pushScope inner) = map_get (variables ctx) name
  /\ popScope inner = ctx.
Proof.
  intros inner. subst inner. unfold pushScope.
  rewrite setScopedVariable_top. repeat split.
  - unfold getVariable, map_has, map_get. simpl.
    rewrite last_snoc, lookup_insert_eq. reflexivity.
  - unfold hasVariable, map_has. simpl.
    rewrite last_snoc, lookup_insert_eq. reflexivity.
  - unfold getVariable, map_has. simpl.
    rewrite last_snoc, lookup_empty. reflexivity.
  - unfold popScope, set_scopeStack. simpl. rewrite removelast_last.
    destruct ctx; reflexivity.
Qed.

(** X2. Calling a user function gives back the body of its definition as it
    stands, whatever the arguments, and leaves the context exactly as it
    was: the scope that is pushed for the parameters is popped again and
    no binding outlives the call. The context calls the user function of
    a name before it asks the standard library: after a definition under
    any name, that of a standard function included, [executeFunction] of
    the context yields the body of the definition. *)
Theorem executeFunction_prefers_user_function (fuel : nat) (name : string)
  (parameters : list string) (namedParameters : option (list string))
  (definition args body : list ASTNode) (func : UserDefinedFunction)
  (ctx : ExecutionContext) :
  let defined := defineFunction name parameters definition namedParameters ctx in
  executeUserFunction func args body ctx = (udf_body func, ctx)
  /\ executeFunction fuel name args body defined
     = (Normal (RNodes definition), defined).
Proof.
  split; [apply executeUserFunction_unchanged|].
  unfold executeFunction, defineFunction. cbn [userFunctions set_userFunctions].
  rewrite lookup_insert_eq, executeUserFunction_unchanged. reflexivity.
Qed.

End Scopes.

(** ** What the expansion leaves alone *)

Section Frame.
Context {rt : JSRuntime} {host : Host}.

Lemma frame_refl (ctx : ExecutionContext) : expansion_frame ctx ctx.
Proof.
  repeat split. exists []. split; [now rewrite app_nil_r|constructor].
Qed.

Lemma frame_trans (a b c : ExecutionContext) :
  expansion_frame a b -> expansion_frame b c -> expansion_frame a c.
Proof.
  intros [Hs1 [Hn1 [Ho1 [w1 [Hw1 Hf1]]]]] [Hs2 [Hn2 [Ho2 [w2 [Hw2 Hf2]]]]].
  repeat split; try congruence.
  exists (w1 ++ w2). split.
  - rewrite Hw2, Hw1. now rewrite app_assoc.
  - apply Forall_app. split; assumption.
Qed.

Lemma frame_eret {A} (a : A) : keeps_frame (eret a).
Proof. intros ctx. apply frame_refl. Qed.

Lemma frame_elift {A} (o : Outcome A) : keeps_frame (elift o).
Proof. intros ctx. apply frame_refl. Qed.

Lemma frame_eread {A} (f : ExecutionContext -> A) : keeps_frame (eread f).
Proof. intros ctx. apply frame_refl. Qed.

Lemma frame_eupdate (f : ExecutionContext -> ExecutionContext) :
  (forall ctx, expansion_frame ctx (f ctx)) -> keeps_frame (eupdate f).
Proof. intros H ctx. apply H. Qed.

Lemma frame_ebind {A B} (m : Exec A) (k : A -> Exec B) :
  keeps_frame m -> (forall a, keeps_frame (k a)) -> keeps_frame (ebind m k).
Proof.
  intros Hm Hk ctx. unfold ebind. specialize (Hm ctx).
  destruct (m ctx) as [[a|e|] ctx']; simpl in *; try exact Hm.
  eapply frame_trans; [exact Hm|apply Hk].
Qed.

Lemma frame_if {A} (b : bool) (m1 m2 : Exec A) :
  keeps_frame m1 -> keeps_frame m2 -> keeps_frame (if b then m1 else m2).
Proof. destruct b; auto. Qed.

Lemma frame_setVariable (name : string) (value : JSValue)
  (ctx : ExecutionContext) :
  expansion_frame ctx (setVariable name value ctx).
Proof.
  repeat split. exists []. split; [simpl; now rewrite app_nil_r|constructor].
Qed.

Lemma frame_setMetadata (key : string) (value : JSValue)
  (ctx : ExecutionContext) :
  expansion_frame ctx (setMetadata key value ctx).
Proof.
  repeat split. exists []. split; [simpl; now rewrite app_nil_r|constructor].
Qed.

Lemma frame_defineFunction (name : string) (parameters : list string)
  (body : list ASTNode) (named : option (list string))
  (ctx : ExecutionContext) :
  expansion_frame ctx (defineFunction name parameters body named ctx).
Proof.
  repeat split. exists []. split; [simpl; now rewrite app_nil_r|constructor].
Qed.

Lemma frame_addWarning (w : CompileWarning) (ctx : ExecutionContext) :
  expander_warning w -> expansion_frame ctx (addWarning w ctx).
Proof.
  intros Hw. repeat split. exists [w]. split; [reflexivity|].
  constructor; [exact Hw|constructor].
Qed.

Ltac frame :=
  repeat first
    [ apply frame_eret | apply frame_elift | apply frame_eread
    | apply frame_eupdate; intros;
      first [apply frame_setVariable | apply frame_setMetadata
            | apply frame_defineFunction]
    | apply frame_ebind; [|intros]
    | apply frame_if
    | match goal with
      | |- keeps_frame (match ?x with _ => _ end) => destruct x
      end ].

Lemma frame_evaluateCondition (node : option ASTNode) :
  keeps_frame (evaluateCondition node).
Proof. unfold evaluateCondition. frame. Qed.

Lemma frame_repeat_loop (fuel : nat) : forall i count body result,
  keeps_frame (repeat_loop fuel i count body result).
Proof.
  induction fuel as [|fuel IH]; intros; simpl; frame. apply IH.
Qed.

Lemma frame_builtin (name : string) (impl : FunctionImplementation) :
  functions !! name = Some impl ->
  forall fuel args body, keeps_frame (impl fuel args body).
Proof.
  cbv [functions List.fold_left register fst snd].
  intros H fuel args body.
  repeat (rewrite lookup_insert_Some in H; destruct H as [[_ <-]|[_ H]];
          [|]).
  all: try solve [cbv [row column grid center add multiply pow truncate var
                       upper lower docname docauthor doctype theme include
                       function if_ repeat_];
                  frame;
                  first [apply frame_evaluateCondition
                        |apply frame_repeat_loop]].
  rewrite lookup_empty in H. discriminate.
Qed.

Lemma frame_executeFunctionCall (fuel : nat) (name : string)
  (args body : list ASTNode) :
  keeps_frame (executeFunctionCall fuel name args body).
Proof.
  intros ctx. unfold executeFunctionCall.
  assert (Hstd : expansion_frame ctx
                   (snd (stdlib_executeFunction fuel name args body ctx))).
  { unfold stdlib_executeFunction.
    destruct (functions !! name) as [impl|] eqn:Himpl;
      [apply (frame_builtin Himpl)|apply frame_refl]. }
  destruct (stdlib_hasFunction name) eqn:Hstdlib; [exact Hstd|].
  destruct (hasFunction name ctx).
  - unfold executeFunction.
    destruct (userFunctions ctx !! name) as [f|].
    + rewrite executeUserFunction_unchanged. apply frame_refl.
    + rewrite Hstdlib. apply frame_refl.
  - apply frame_addWarning. repeat split.
Qed.

Lemma frame_resolveVariable (name : string) :
  keeps_frame (resolveVariable name).
Proof.
  intros ctx. unfold resolveVariable.
  destruct (getVariable name ctx); try apply frame_refl.
  apply frame_addWarning. repeat split.
Qed.

Lemma frame_executeNode (fuel : nat) :
  forall node, keeps_frame (executeNode fuel node).
Proof.
  fix IH 1. intros node.
  destruct node; simpl; try apply frame_eret;
    try apply frame_executeFunctionCall;
    try (apply frame_ebind;
         [apply frame_resolveVariable|intros; apply frame_eret]).
  all: apply frame_ebind; [|intros; apply frame_eret].
  all: generalize (@nil ASTNode).
  all: induction children as [|child rest IHrest]; intros processed;
    [apply frame_eret|].
  all: apply frame_ebind; [apply IH|intros; apply IHrest].
Qed.

Lemma frame_executeNodes (fuel : nat) : forall nodes executed,
  keeps_frame (executeNodes fuel nodes executed).
Proof.
  induction nodes as [|node rest IH]; intros executed; simpl.
  - apply frame_eret.
  - apply frame_ebind; [apply frame_executeNode|intros; apply IH].
Qed.

Lemma frame_executeDocument (fuel : nat) (tree : DocumentNode) :
  keeps_frame (executeDocument fuel tree).
Proof.
  unfold executeDocument.
  apply (frame_ebind (frame_executeNodes fuel (doc_children tree) [])
           (fun a => frame_eret _)).
Qed.

(** X3. The expansion of a document, and of any node, whether it ends
    normally, throws or runs out of steps, leaves the scope stack, the
    named arguments and the options of the context as they were, removes
    no warning, and adds only style warnings without line and column. *)
Theorem executeDocument_keeps_frame (fuel : nat) (tree : DocumentNode)
  (node : ASTNode) (ctx : ExecutionContext) :
  expansion_frame ctx (snd (executeDocument fuel tree ctx))
  /\ expansion_frame ctx (snd (executeNode fuel node ctx)).
Proof.
  split; [apply frame_executeDocument|apply frame_executeNode].
Qed.

End Frame.

(** ** The table of the standard library *)

Section Library.
Context {rt : JSRuntime} {host : Host}.

(** X4. The standard library has a function of a name exactly for the
    nineteen registered names; in particular it has none for [doclang],
    which [extractMetadata] reads. A name is a function for the context
    exactly when it is one of these or a user function. *)
Theorem registered_functions (name : string) (ctx : ExecutionContext) :
  (stdlib_hasFunction name = true <-> In name registered_names)
  /\ (hasFunction name ctx = true
      <-> is_Some (userFunctions ctx !! name) \/ In name registered_names).
Proof.
  assert (Hstd : stdlib_hasFunction name = true <-> In name registered_names).
  { unfold stdlib_hasFunction, map_has. split.
    - destruct (functions !! name) as [impl|] eqn:H; [intros _|discriminate].
      revert H. cbv [functions List.fold_left register fst snd]. intros H.
      repeat (rewrite lookup_insert_Some in H;
              destruct H as [[<- _]|[_ H]];
              [unfold registered_names;
               repeat first [left; reflexivity|right]|]).
      rewrite lookup_empty in H. discriminate.
    - intros H. unfold registered_names in H. simpl in H.
      repeat (destruct H as [<-|H]; [reflexivity|]). contradiction. }
  split; [exact Hstd|].
  unfold hasFunction, map_has. rewrite orb_true_iff, Hstd.
  destruct (userFunctions ctx !! name) as [f|].
  - split; intros _; left; [eexists|]; reflexivity.
  - split; intros [H|H]; try discriminate; try (right; exact H).
    destruct H as [f H]. discriminate.
Qed.

(** X5. A call node without positional arguments, as the parser makes
    every call node: for each of the thirteen built-ins that read their
    first argument the execution throws a [TypeError] and leaves the
    context as it was; the six others, the layouts and the two case
    functions, end normally without touching the context. *)
Theorem builtins_without_arguments (fuel : nat) (body : list ASTNode)
  (named : list (string * ASTNode)) (loc : option SourceLocation)
  (ctx : ExecutionContext) :
  Forall (fun name =>
            executeNode fuel (FunctionCallNode name [] named body loc) ctx
            = (Throw (TypeError
                 "Cannot read properties of undefined (reading 'type')"),
               ctx))
    reads_first_argument
  /\ Forall (fun name =>
               exists result,
                 executeNode fuel (FunctionCallNode name [] named body loc) ctx
                 = (Normal result, ctx))
       ["row"; "column"; "grid"; "center"; "upper"; "lower"].
Proof.
  split.
  - unfold reads_first_argument. repeat constructor.
  - repeat constructor; eexists; reflexivity.
Qed.

(** X6. A definition and a call: [.function {name}] with a body, followed
    by a call of this name, yields the body of the definition as it
    stands, whatever the arguments and the body of the call, when the
    name is not that of a standard function; the context afterwards is
    the one with the definition and nothing else. *)
Theorem defined_function_returns_its_body (fuel : nat) (first : ASTNode)
  (more definition args body : list ASTNode)
  (named named' : list (string * ASTNode)) (loc loc' : option SourceLocation)
  (ctx : ExecutionContext) :
  let name := getTextFromNode first in
  stdlib_hasFunction name = false ->
  executeNodes fuel
    [FunctionCallNode "function" (first :: more) named definition loc;
     FunctionCallNode name args named' body loc'] [] ctx
  = (Normal definition, defineFunction name [] definition None ctx).
Proof.
  intros name Hname.
  rewrite executeNodes_cons.
  assert (Hdef :
    executeNode fuel
      (FunctionCallNode "function" (first :: more) named definition loc) ctx
    = (Normal RNull, defineFunction name [] definition None ctx))
    by reflexivity.
  rewrite Hdef, executeNodes_cons. cbn [executeNode].
  unfold executeFunctionCall. rewrite Hname.
  set (ctx' := defineFunction name [] definition None ctx).
  assert (Hfun : userFunctions ctx' !! name
                 = Some {| udf_name := name; udf_parameters := [];
                           udf_namedParameters := None;
                           udf_body := definition |})
    by apply lookup_insert_eq.
  unfold hasFunction, map_has, executeFunction. rewrite Hfun.
  cbn [orb ebind]. unfold ebind.
  rewrite executeUserFunction_unchanged. reflexivity.
Qed.

Lemma map_text_case_mapped (f : string -> string) (body : list ASTNode) :
  Forall2 (case_mapped f) body (List.map (map_text f) body).
Proof.
  induction body as [|node rest IH]; simpl; constructor; [|exact IH].
  destruct node; reflexivity.
Qed.

(** X7. [upper] and [lower] change the content of the text nodes that are
    directly in the body and nothing else: the result has the nodes of the
    body in their order, each of its kind and with its children as they
    were, also without any argument; the context is as it was. Node by
    node, a text node has its content mapped by [toUpperCase] or by
    [toLowerCase] and keeps its location, and any other node is the node
    itself. *)
Theorem case_functions_keep_structure (fuel : nat) (args body : list ASTNode)
  (ctx : ExecutionContext) :
  exists up low,
    upper fuel args body ctx = (Normal (RNodes up), ctx)
    /\ lower fuel args body ctx = (Normal (RNodes low), ctx)
    /\ List.map node_type up = List.map node_type body
    /\ List.map node_type low = List.map node_type body
    /\ List.map node_children up = List.map node_children body
    /\ List.map node_children low = List.map node_children body
    /\ List.map getTextFromNode up
       = List.map (fun node => match node with
                               | TextNode content _ => toUpperCase content
                               | _ => getTextFromNode node
                               end) body
    /\ Forall2 (case_mapped toUpperCase) body up
    /\ Forall2 (case_mapped toLowerCase) body low.
Proof.
  eexists. eexists. split; [reflexivity|]. split; [reflexivity|].
  repeat split; try apply map_text_case_mapped;
    rewrite List.map_map; apply List.map_ext; intros [ ]; reflexivity.
Qed.

End Library.

(** ** The loop of [repeat] *)

Section Repeat.
Context {rt : JSRuntime} {host : Host}.

Lemma setVariable_twice (name : string) (v1 v2 : JSValue)
  (ctx : ExecutionContext) :
  setVariable name v2 (setVariable name v1 ctx) = setVariable name v2 ctx.
Proof.
  unfold setVariable, set_variables. simpl. now rewrite insert_insert_eq.
Qed.

Lemma repeat_loop_turns (n : nat) (count : number)
  (body : list ASTNode) :
  (forall i, (i <= n)%nat -> num_ltb (num_of_nat i) count = (i <? n)%nat) ->
  forall (k i fuel : nat) (result : list ASTNode) (ctx : ExecutionContext),
    (i + k = n)%nat -> (k < fuel)%nat ->
    repeat_loop fuel i count body result ctx
    = (Normal (result ++ List.concat (replicate k body)),
       after_turns k n ctx).
Proof.
  intros Hcount. induction k as [|k IH]; intros i fuel result ctx Hik Hfuel.
  - destruct fuel as [|fuel]; [lia|]. simpl.
    rewrite Hcount by lia. replace (i <? n)%nat with false
      by (symmetry; apply Nat.ltb_ge; lia).
    unfold eret. now rewrite app_nil_r.
  - destruct fuel as [|fuel]; [lia|]. simpl.
    rewrite Hcount by lia. replace (i <? n)%nat with true
      by (symmetry; apply Nat.ltb_lt; lia).
    unfold ebind, eupdate. simpl.
    rewrite (IH (S i) fuel) by lia. f_equal.
    + now rewrite <- app_assoc.
    + destruct k as [|k]; simpl.
      * do 3 f_equal. lia.
      * apply setVariable_twice.
Qed.

(** X8. When the count behaves as the integer [n] in the comparisons of
    the loop, [repeat] ends within [n] + 1 steps and yields the body [n]
    times in a row, each copy as it stands; the index variable is left at
    [n] - 1 when the loop has turned, and the context is otherwise as it
    was. *)
Theorem repeat_emits_counted_copies (n fuel : nat) (first : ASTNode)
  (more body : list ASTNode) (ctx : ExecutionContext) :
  let text := getTextFromNode first in
  let count :=
    num_or (if isNaN (parseFloat text) then None else Some (parseFloat text))
      num_one in
  (forall i, (i <= n)%nat -> num_ltb (num_of_nat i) count = (i <? n)%nat) ->
  (n < fuel)%nat ->
  repeat_ fuel (first :: more) body ctx
  = (Normal (RNodes (List.concat (replicate n body))), after_turns n n ctx).
Proof.
  intros text count Hcount Hfuel.
  unfold repeat_, ebind, elift, getNumberFromNode, getTextFromNode_ref.
  simpl. fold text. fold count.
  rewrite (repeat_loop_turns (n := n) (count := count) body Hcount
             (k := n) (i := 0) (fuel := fuel) [] ctx) by lia.
  reflexivity.
Qed.

End Repeat.

(** ** The results of [compile] *)

Section Results.
Context {rt : JSRuntime} {host : Host}.

Lemma includes_doctype (d : string) :
  includes ["slides"; "paged"; "plain"] d = true -> valid_doctype d.
Proof.
  unfold includes, valid_doctype. simpl. rewrite !orb_true_iff.
  intros [H|[H|[H|H]]]; try discriminate; apply String.eqb_eq in H; auto.
Qed.

Lemma extractMetadata_step_doctype (metadata : DocumentMetadata)
  (node : ASTNode) :
  valid_doctype (md_doctype metadata) ->
  valid_doctype (md_doctype (extractMetadata_step metadata node)).
Proof.
  intros H. destruct node; simpl; try exact H.
  repeat match goal with
         | |- context [if String.eqb ?a ?b then _ else _] =>
             destruct (String.eqb a b)
         end; simpl; try exact H.
  destruct (extractStringArgument args 0) as [d|]; [|exact H].
  destruct (negb (String.eqb d "")); simpl; [|exact H].
  match goal with
  | |- context [if ?c then _ else _] => destruct c eqn:Hd
  end; [|exact H].
  simpl. apply includes_doctype. exact Hd.
Qed.

Lemma fold_extractMetadata_doctype (nodes : list ASTNode) :
  forall metadata,
    valid_doctype (md_doctype metadata) ->
    valid_doctype
      (md_doctype (List.fold_left extractMetadata_step nodes metadata)).
Proof.
  induction nodes as [|node rest IH]; intros metadata H; simpl.
  - exact H.
  - apply IH. apply extractMetadata_step_doctype. exact H.
Qed.

(** X9. The doctype that [extractMetadata] reports is always one of plain,
    slides and paged, whatever the calls of the document say; and of the
    calls that set the title the last one decides, so that a last call
    whose first argument is not a text node leaves the title undefined. *)
Theorem extractMetadata_doctype_and_title (children args body : list ASTNode)
  (named : list (string * ASTNode)) (loc : option SourceLocation)
  (ctx : ExecutionContext) :
  valid_doctype
    (md_doctype (extractMetadata {| doc_children := children |} ctx))
  /\ md_title
       (extractMetadata
          {| doc_children :=
               children ++ [FunctionCallNode "docname" args named body loc] |}
          ctx)
     = extractStringArgument args 0.
Proof.
  split.
  - apply fold_extractMetadata_doctype. left. reflexivity.
  - unfold extractMetadata. simpl. rewrite List.fold_left_app. reflexivity.
Qed.

(** What the [try] block of [compile] leaves behind, in every outcome. *)
Lemma compile_try_facts (fuel : nat) (source : string)
  (options : CompileOptions) :
  let '(outcome, errors, warnings) :=
    compile_try fuel source options [] [] in
  (length errors <= 1)%nat
  /\ List.filter is_runtime errors = []
  /\ Forall (fun e => ce_line e = None /\ ce_column e = None) errors
  /\ match outcome with
     | Normal result =>
         cr_errors result = errors
         /\ cr_warnings result = warnings
         /\ Forall expander_warning warnings
         /\ valid_doctype (md_doctype (cr_metadata result))
     | _ => warnings = []
     end.
Proof.
  unfold compile_try.
  set (parsed := Parser.errors (Parser.parse md_parse source)).
  set (tree := Parser.ast (Parser.parse md_parse source)).
  assert (Hparsed : parsed = [] \/ exists error, parsed = [syntax_error error]).
  { subst parsed.
    destruct (parse_cases md_parse source) as [[error [_ H]]|[t [_ H]]];
      rewrite H; simpl; eauto. }
  set (errors := if (0 <? length parsed)%nat
                 then [] ++ List.map error_of_parse parsed else []).
  assert (Herrors : (length errors <= 1)%nat
                    /\ List.filter is_runtime errors = []
                    /\ Forall (fun e => ce_line e = None /\ ce_column e = None)
                         errors).
  { subst errors. destruct Hparsed as [->|[error ->]]; simpl.
    - repeat split; auto.
    - repeat split; auto. }
  destruct Herrors as [Hlen [Hrun Hpos]].
  destruct ((0 <? length parsed)%nat && is_strict options).
  - repeat split; auto. left. reflexivity.
  - pose proof (frame_executeDocument fuel tree
                  (new_ExecutionContext options)) as Hframe.
    destruct (executeDocument fuel tree (new_ExecutionContext options))
      as [[expanded|e|] context]; simpl in Hframe.
    + destruct (render _ _) as [html|e|]; repeat split; auto.
      * destruct Hframe as [_ [_ [_ [added [Hw Hadded]]]]].
        unfold getWarnings. rewrite Hw. exact Hadded.
      * apply fold_extractMetadata_doctype. left. reflexivity.
    + repeat split; auto.
    + repeat split; auto.
Qed.

(** X10. Every result of [compile] has at most two errors, of which at
    most one is a runtime error, and none has a line or a column; with a
    runtime error the HTML is the empty string and there are no warnings;
    the doctype of the metadata is plain, slides or paged; and every
    warning is a style warning without line and column. *)
Theorem compile_result_invariants (fuel : nat) (source : string)
  (options : CompileOptions) :
  match compile fuel source options with
  | Some result =>
      (length (cr_errors result) <= 2)%nat
      /\ (length (List.filter is_runtime (cr_errors result)) <= 1)%nat
      /\ (List.filter is_runtime (cr_errors result) = []
          \/ (cr_html result = "" /\ cr_warnings result = []))
      /\ Forall (fun e => ce_line e = None /\ ce_column e = None)
           (cr_errors result)
      /\ valid_doctype (md_doctype (cr_metadata result))
      /\ Forall expander_warning (cr_warnings result)
  | None => True
  end.
Proof.
  pose proof (compile_try_facts fuel source options) as H.
  unfold compile.
  destruct (compile_try fuel source options [] [])
    as [[[result|e|] errors] warnings]; [| |exact I].
  - destruct H as [Hlen [Hrun [Hpos [-> [-> [Hw Hd]]]]]].
    rewrite Hrun. repeat split; auto; simpl; lia.
  - destruct H as [Hlen [Hrun [Hpos ->]]]. simpl.
    rewrite List.filter_app, Hrun, length_app. simpl.
    repeat split; auto; try lia.
    + apply Forall_app. split; [exact Hpos|]. repeat constructor.
    + left. reflexivity.
Qed.

(** X11. Every diagnostic of [getDiagnostics] has the range from character
    0 to character 10 of line 0 and the source [quarkdown]: no issue that
    [compile] reports has a position. There is one diagnostic for each
    error and each warning. *)
Theorem diagnostics_at_start_of_document (fuel : nat) (source : string) :
  match getDiagnostics fuel source, compile fuel source strict_false with
  | Some diagnostics, Some result =>
      Forall (fun d => d_range d = start_of_document
                       /\ d_source d = "quarkdown") diagnostics
      /\ length diagnostics
         = (length (cr_errors result) + length (cr_warnings result))%nat
  | None, None => True
  | _, _ => False
  end.
Proof.
  pose proof (compile_try_facts fuel source strict_false) as H.
  unfold getDiagnostics, compile.
  destruct (compile_try fuel source strict_false [] [])
    as [[[result|e|] errors] warnings]; [| |exact I].
  - destruct H as [_ [_ [Hpos [He [Hw [Hws _]]]]]]. split.
    + unfold issues. rewrite List.map_app. apply Forall_app. split.
      * rewrite He. clear -Hpos.
        induction Hpos as [|e l [Hl Hc] _ IH]; simpl; constructor; auto.
        unfold diagnostic_of, start_of_document. simpl.
        rewrite Hl, Hc. split; reflexivity.
      * rewrite Hw. clear -Hws.
        induction Hws as [|w l [_ [Hl Hc]] _ IH]; simpl; constructor; auto.
        unfold diagnostic_of, start_of_document. simpl.
        rewrite Hl, Hc. split; reflexivity.
    + unfold issues. now rewrite length_map, length_app, !length_map.
  - destruct H as [_ [_ [Hpos ->]]]. simpl. split.
    + unfold issues. simpl. rewrite app_nil_r, !List.map_app.
      apply Forall_app. split.
      * clear -Hpos.
        induction Hpos as [|e' l [Hl Hc] _ IH]; simpl; constructor; auto.
        unfold diagnostic_of, start_of_document. simpl.
        rewrite Hl, Hc. split; reflexivity.
      * repeat constructor.
    + unfold issues. simpl.
      now rewrite length_map, app_nil_r, length_map, length_app.
Qed.

(** X12. A failure of the parser and the strict option: in strict mode
    [compile] returns at once, with the one syntax error, no runtime error
    and the default metadata, and neither expands nor renders; otherwise
    it goes on with the empty document, hands it to the renderer with the
    default metadata, and keeps the syntax error in front. *)
Theorem parse_failure_and_strict_mode (fuel : nat) (source : string)
  (options : CompileOptions) (error : JSError) :
  fst (Parser.parse_try md_parse source []) = inl error ->
  let syntax := error_of_parse (syntax_error error) in
  compile fuel source options
  = if is_strict options then
      Some {| cr_html := ""; cr_metadata := getDefaultMetadata;
              cr_errors := [syntax]; cr_warnings := [] |}
    else
      match render {| doc_children := [] |}
              {| ro_doctype := Some "plain"; ro_theme := None;
                 ro_outputFormat := opt_outputFormat options;
                 ro_includeStyles := None; ro_minify := None |} with
      | Normal html =>
          Some {| cr_html := html; cr_metadata := getDefaultMetadata;
                  cr_errors := [syntax]; cr_warnings := [] |}
      | Throw thrown =>
          Some {| cr_html := ""; cr_metadata := getDefaultMetadata;
                  cr_errors := [syntax; runtime_error thrown];
                  cr_warnings := [] |}
      | Diverge => None
      end.
Proof.
  intros Htry syntax.
  destruct (parse_cases md_parse source) as [[error' [Htry' H]]|[t [Htry' _]]];
    [|congruence].
  assert (error' = error) by congruence. subst error'.
  unfold compile, compile_try. rewrite H. simpl.
  destruct (is_strict options); [reflexivity|].
  unfold extractMetadata. simpl.
  destruct (render _ _); reflexivity.
Qed.

End Results.

(** ** The passes of the parser *)

Section PassProperties.
Context {rt : JSRuntime}.
Import Parser.

Lemma append_cons (x : ascii) (a b : string) :
  String x a +:+ b = String x (a +:+ b).
Proof. reflexivity. Qed.

Lemma append_nil_l (b : string) : "" +:+ b = b.
Proof. reflexivity. Qed.

Lemma append_assoc (a b c : string) : (a +:+ b) +:+ c = a +:+ b +:+ c.
Proof.
  induction a as [|x a IH]; [reflexivity|].
  rewrite !append_cons. now f_equal.
Qed.

Lemma length_append (a b : string) :
  String.length (a +:+ b) = (String.length a + String.length b)%nat.
Proof.
  induction a as [|x a IH]; [reflexivity|].
  rewrite append_cons. simpl. now rewrite IH.
Qed.

Lemma slice_from_append (a b : string) :
  slice_from (String.length a) (a +:+ b) = b.
Proof.
  induction a as [|x a IH]; [now destruct b|].
  rewrite append_cons. exact IH.
Qed.

Lemma take_while_append (p : ascii -> bool) (a b : string) :
  take_while p a = a -> take_while p b = "" -> take_while p (a +:+ b) = a.
Proof.
  intros Ha Hb. induction a as [|x a IH]; [exact Hb|].
  rewrite append_cons. simpl in *.
  destruct (p x); [|discriminate]. injection Ha as Ha. now rewrite IH.
Qed.

Lemma space_is_no_identifier_character (c : ascii) :
  is_space c = true -> is_ident_char c = false.
Proof. destruct c as [[] [] [] [] [] [] [] []]; vm_compute; congruence. Qed.

Lemma match_function_call_no_dot (c : ascii) (rest : string) :
  c <> "."%char -> match_function_call (String c rest) = None.
Proof.
  intros Hc. destruct c as [[] [] [] [] [] [] [] []]; try reflexivity.
  contradiction Hc. reflexivity.
Qed.

Lemma match_quote_type_no_bracket (c : ascii) (rest : string) :
  c <> ">"%char -> match_quote_type (String c rest) = None.
Proof.
  intros Hc. destruct c as [[] [] [] [] [] [] [] []]; try reflexivity.
  contradiction Hc. reflexivity.
Qed.

Lemma replace_function_calls_skip (a b : string) :
  replace_function_calls (String.length a) (a +:+ b)
  = replace_function_calls 0 b.
Proof.
  induction a as [|x a IH]; [now destruct b|].
  rewrite append_cons. exact IH.
Qed.

(** X13. A source without a dot and without a closing angle bracket goes
    to markdown-it as it is: the textual pre-pass changes nothing. *)
Theorem preprocess_leaves_plain_text (source : string) :
  Forall (fun c => c <> "."%char /\ c <> ">"%char)
    (list_ascii_of_string source) ->
  preprocessQuarkdownSyntax source = source.
Proof.
  intros H. unfold preprocessQuarkdownSyntax, preprocessFunctionCalls.
  assert (Hcalls : replace_function_calls 0 source = source).
  { induction source as [|c rest IH]; [reflexivity|].
    inversion H as [|? ? [Hdot _] Hrest]; subst.
    cbn [replace_function_calls].
    rewrite (match_function_call_no_dot rest Hdot). now rewrite IH. }
  rewrite Hcalls. generalize true.
  induction source as [|c rest IH]; intros bol; [reflexivity|].
  inversion H as [|? ? [_ Hbracket] Hrest]; subst.
  cbn [replace_quote_types].
  rewrite (match_quote_type_no_bracket rest Hbracket).
  assert (Hrest' : replace_function_calls 0 rest = rest).
  { clear -Hrest. induction rest as [|c rest IH]; [reflexivity|].
    inversion Hrest as [|? ? [Hdot _] Hrest']; subst.
    cbn [replace_function_calls].
    rewrite (match_function_call_no_dot rest Hdot). now rewrite IH. }
  destruct bol; now rewrite (IH Hrest Hrest').
Qed.

(** X14. A call with braces is replaced by its marker: a dot, an
    identifier, white space, and between braces a text without a closing
    brace become the marker of the name and the text, and what follows the
    closing brace is processed for itself. *)
Theorem call_with_braces_becomes_marker (name spaces args rest : string) :
  match_identifier name = Some name ->
  take_while is_space spaces = spaces ->
  take_while (fun c => negb (Ascii.eqb c "}")) args = args ->
  preprocessFunctionCalls
    ("." +:+ name +:+ spaces +:+ "{" +:+ args +:+ "}" +:+ rest)
  = "{{FUNCTION:" +:+ name +:+ ":" +:+ args +:+ "}}"
    +:+ preprocessFunctionCalls rest.
Proof.
  intros Hname Hspaces Hargs.
  unfold preprocessFunctionCalls.
  set (tail := spaces +:+ "{" +:+ args +:+ "}" +:+ rest).
  assert (Htail : take_while is_ident_char tail = "").
  { subst tail. destruct spaces as [|c sp]; [reflexivity|].
    rewrite append_cons. simpl in Hspaces. simpl.
    destruct (is_space c) eqn:Hc; [|discriminate].
    now rewrite (space_is_no_identifier_character Hc). }
  assert (Hid : match_identifier (name +:+ tail) = Some name).
  { destruct name as [|c n]; [discriminate|].
    rewrite append_cons. simpl in *.
    destruct (is_ident_start c); [|discriminate].
    injection Hname as Hn. now rewrite (take_while_append Hn Htail). }
  assert (Hsp : take_while is_space tail = spaces).
  { subst tail. apply take_while_append; [exact Hspaces|reflexivity]. }
  assert (Har : take_while (fun c => negb (Ascii.eqb c "}"))
                  (args +:+ "}" +:+ rest) = args).
  { apply take_while_append; [exact Hargs|reflexivity]. }
  assert (Hmatch :
    match_function_call (String "." (name +:+ tail))
    = Some (name, args,
            1 + String.length name + String.length spaces + 1
            + String.length args + 1)%nat).
  { unfold match_function_call. rewrite Hid, slice_from_append, Hsp.
    subst tail. rewrite slice_from_append, append_cons, append_nil_l.
    cbv iota beta. rewrite Har, slice_from_append, append_cons.
    reflexivity. }
  change ("." +:+ name +:+ tail) with (String "." (name +:+ tail)).
  cbn [replace_function_calls]. rewrite Hmatch.
  do 4 f_equal. subst tail.
  replace (name +:+ spaces +:+ "{" +:+ args +:+ "}" +:+ rest)
    with ((name +:+ spaces +:+ "{" +:+ args +:+ "}") +:+ rest)
    by (now rewrite !append_assoc).
  replace (1 + String.length name + String.length spaces + 1
           + String.length args + 1 - 1)%nat
    with (String.length (name +:+ spaces +:+ "{" +:+ args +:+ "}")).
  - now rewrite replace_function_calls_skip.
  - rewrite !length_append. simpl. lia.
Qed.

Lemma find_math_close_after (steps : nat) (src : string) (isDisplay : bool)
  (posMax : nat) :
  forall pos p,
    find_math_close steps src isDisplay posMax pos = Some p -> (pos < p)%nat.
Proof.
  induction steps as [|steps IH]; intros pos p; simpl; [discriminate|].
  destruct (pos <? posMax)%nat; [|discriminate].
  destruct (char_is (charAt src pos) "$").
  - destruct (isDisplay && char_is (charAt src (pos + 1)) "$").
    + intros H. injection H as <-. lia.
    + destruct (negb isDisplay).
      * intros H. injection H as <-. lia.
      * intros H. apply IH in H. lia.
  - intros H. apply IH in H. lia.
Qed.

(** X15. The four inline rules and the state of the tokenizer: each leaves
    the state untouched when it rejects, never changes the source, and on
    acceptance pushes exactly one token, or none in silent mode. The rules
    of function calls, variables and math move the position forward when
    they accept; the rule of enhanced images accepts without moving it. *)
Theorem inline_rules_and_state (state : StateInline) (silent : bool) :
  rule_outcome true parseFunctionCall state silent
  /\ rule_outcome true parseVariable state silent
  /\ rule_outcome true parseMath state silent
  /\ rule_outcome false parseEnhancedImage state silent.
Proof.
  repeat split.
  - unfold rule_outcome, parseFunctionCall.
    destruct (negb _); [repeat split|].
    destruct (match_identifier _) as [name|]; [|repeat split].
    destruct silent; simpl; repeat split; try lia; eexists; reflexivity.
  - unfold rule_outcome, parseVariable.
    destruct (negb _); [repeat split|].
    destruct (match_identifier _) as [name|]; [|repeat split].
    destruct (_ || _); [repeat split|].
    destruct silent; simpl; repeat split; try lia; eexists; reflexivity.
  - unfold rule_outcome, parseMath.
    destruct (negb _); [repeat split|].
    destruct (find_math_close _ _ _ _ _) as [p|] eqn:Hfind; [|repeat split].
    apply find_math_close_after in Hfind.
    destruct silent; simpl; repeat split; try lia; eexists; reflexivity.
  - unfold rule_outcome, parseEnhancedImage.
    destruct (_ || _); [repeat split|].
    destruct (_ <=? _)%nat; [repeat split|].
    destruct (negb _); [repeat split|].
    destruct silent; simpl; repeat split; eexists; reflexivity.
Qed.

Lemma tokenToASTNode_flat (token : Token) (errors : list ParseError)
  (node : ASTNode) :
  fst (tokenToASTNode token errors) = Some node -> flat_node node.
Proof.
  unfold tokenToASTNode, parseFunctionCallToken, parseImageToken, flat_node.
  repeat match goal with
         | |- context [if ?b then _ else _] => destruct b
         end; simpl; intros H; inversion H; subst; simpl; auto.
Qed.

Lemma tokensToAST_loop_flat (tokens : list Token) :
  forall children errors,
    Forall flat_node children ->
    Forall flat_node (fst (tokensToAST_loop tokens children errors))
    /\ (length (fst (tokensToAST_loop tokens children errors))
        <= length children + length tokens)%nat.
Proof.
  induction tokens as [|token rest IH]; intros children errors Hflat; simpl.
  - split; [exact Hflat|lia].
  - pose proof (@tokenToASTNode_flat token errors) as Hnode.
    destruct (tokenToASTNode token errors) as [[node|] errors']; simpl in *.
    + destruct (IH (children ++ [node]) errors') as [H1 H2].
      * apply Forall_app. split; [exact Hflat|].
        constructor; [now apply Hnode|constructor].
      * split; [exact H1|]. rewrite length_app in H2. simpl in H2. lia.
    + destruct (IH children errors' Hflat) as [H1 H2]. split; [exact H1|lia].
Qed.

(** X16. The tree that [parse] returns is flat: every child of the document
    is a node without children, every call node has no argument, no named
    argument and no body, and there are at most as many children as
    markdown-it gave tokens; when markdown-it throws there is none. *)
Theorem parsed_tree_is_flat (md : string -> JSError + list Token)
  (source : string) :
  let children := doc_children (ast (parse md source)) in
  Forall flat_node children
  /\ match md (preprocessQuarkdownSyntax source) with
     | inr tokens => (length children <= length tokens)%nat
     | inl _ => children = []
     end.
Proof.
  unfold parse, parse_try, tokensToAST.
  destruct (md (preprocessQuarkdownSyntax source)) as [error|tokens]; simpl.
  - split; [constructor|reflexivity].
  - pose proof (@tokensToAST_loop_flat tokens [] [] (List.Forall_nil _)) as [H1 H2].
    destruct (tokensToAST_loop tokens [] []) as [children errors].
    simpl in *. split; assumption.
Qed.

End PassProperties.

(** ** Identifiers from text *)

Section Identifiers.
Context {rt : JSRuntime}.

Lemma kept_and_no_separator_is_alphanumeric (c : ascii) :
  is_slug_input c = true -> is_separator c = false ->
  is_alphanumeric c = true /\ is_dash c = false.
Proof.
  destruct c as [[] [] [] [] [] [] [] []]; vm_compute; intros; split;
    congruence.
Qed.

Lemma separator_is_kept (c : ascii) :
  is_separator c = true -> is_slug_input c = true.
Proof. destruct c as [[] [] [] [] [] [] [] []]; vm_compute; congruence. Qed.

Lemma join_separators_single_dashes (s : string) :
  forall in_run,
    single_dashes in_run (join_separators in_run (remove_others s)) = true.
Proof.
  induction s as [|c rest IH]; intros in_run; simpl; [reflexivity|].
  destruct (is_slug_input c) eqn:Hkept; [|apply IH].
  simpl. destruct (is_separator c) eqn:Hsep.
  - destruct in_run; [apply IH|]. simpl. apply IH.
  - destruct (kept_and_no_separator_is_alphanumeric Hkept Hsep) as [Ha Hd].
    simpl. rewrite Hd, Ha. apply IH.
Qed.

Lemma drop_dashes_single_dashes (s : string) :
  forall b, single_dashes b s = true ->
            single_dashes true (drop_while is_dash s) = true.
Proof.
  induction s as [|c rest IH]; intros b H; simpl in *; [reflexivity|].
  destruct (is_dash c) eqn:Hd.
  - apply andb_true_iff in H as [_ H]. apply (IH true H).
  - simpl. rewrite Hd. exact H.
Qed.

Lemma trim_end_dashes_inside (s : string) :
  forall b, single_dashes b s = true ->
            trim_end_dashes s = "" \/ dashes_inside b (trim_end_dashes s) = true.
Proof.
  induction s as [|c rest IH]; intros b H; simpl in *; [now left|].
  destruct (is_dash c) eqn:Hd.
  - apply andb_true_iff in H as [Hb H].
    destruct (IH true H) as [Hrest|Hrest].
    + rewrite Hrest. now left.
    + right. destruct (trim_end_dashes rest) as [|c' rest'] eqn:Ht;
        [discriminate|].
      cbn [dashes_inside]. rewrite Hd, Hb. exact Hrest.
  - apply andb_true_iff in H as [Ha H]. right.
    destruct (trim_end_dashes rest) as [|c' rest'] eqn:Ht.
    + simpl. rewrite Hd, Ha. reflexivity.
    + destruct (IH false H) as [Hrest|Hrest]; [discriminate|].
      cbn [dashes_inside]. rewrite Hd, Ha. exact Hrest.
Qed.

(** X17. The identifier that [generateId] makes for a heading, and the slug
    that [slugify] makes, which is the same string: it is made of ASCII
    letters, digits and dashes only, it neither starts nor ends with a
    dash, and no two dashes follow each other. No quote, angle bracket,
    ampersand or white space is in it, whatever the text and whatever the
    case mapping of the host. *)
Theorem generated_identifiers_are_well_formed (text : string) :
  well_formed_id (generateId text) = true
  /\ slugify text = generateId text.
Proof.
  split; [|reflexivity].
  unfold generateId, trim_dashes.
  pose proof (join_separators_single_dashes (toLowerCase text) false) as H.
  apply drop_dashes_single_dashes in H.
  apply trim_end_dashes_inside in H.
  unfold well_formed_id.
  destruct H as [-> | H]; [reflexivity|].
  destruct (trim_end_dashes _); [reflexivity|exact H].
Qed.

End Identifiers.

(** ** Searching the tree *)

Section Search.
Context {rt : JSRuntime}.

Lemma findNodes_filter (predicate : ASTNode -> bool) :
  forall root,
    findNodes predicate root
    = List.filter predicate (findNodes (fun _ => true) root).
Proof.
  fix IH 1. intros root.
  assert (Hchildren : forall children : list ASTNode,
    (fix traverse_children (children : list ASTNode) : list ASTNode :=
       match children with
       | [] => []
       | child :: rest => findNodes predicate child ++ traverse_children rest
       end) children
    = List.filter predicate
        ((fix traverse_children (children : list ASTNode) : list ASTNode :=
            match children with
            | [] => []
            | child :: rest =>
                findNodes (fun _ => true) child ++ traverse_children rest
            end) children)).
  { induction children as [|child rest IHrest]; [reflexivity|].
    rewrite List.filter_app, <- IH, <- IHrest. reflexivity. }
  destruct root; simpl; try (destruct (predicate _); reflexivity);
    try (rewrite Hchildren; destruct (predicate _); reflexivity).
  destruct children as [c|]; [|destruct (predicate _); reflexivity].
  rewrite Hchildren. destruct (predicate _); reflexivity.
Qed.

Lemma getTextContent_getTextFromNode :
  forall node, getTextContent node = getTextFromNode node.
Proof.
  fix IH 1. intros node.
  assert (Hchildren : forall children : list ASTNode,
    (fix texts (children : list ASTNode) : string :=
       match children with
       | [] => ""
       | child :: rest => getTextContent child +:+ texts rest
       end) children
    = (fix texts (children : list ASTNode) : string :=
         match children with
         | [] => ""
         | child :: rest => getTextFromNode child +:+ texts rest
         end) children).
  { induction children as [|child rest IHrest]; [reflexivity|].
    rewrite IH, IHrest. reflexivity. }
  destruct node as [| | | | | | | | | | | | | | | | |? ? [children|]];
    simpl; try reflexivity; apply Hchildren.
Qed.


(** X19. What [findFunctionCalls] finds are call nodes, with the wanted
    name when one is given, and the empty string as the wanted name finds
    what no name finds. *)
Theorem findFunctionCalls_finds_calls (root : ASTNode)
  (functionName : option string) :
  Forall (fun node =>
            node_type node = "function_call"
            /\ match functionName with
               | Some wanted =>
                   wanted = "" \/ node_name node = Some wanted
               | None => True
               end)
    (findFunctionCalls root functionName)
  /\ findFunctionCalls root (Some "") = findFunctionCalls root None.
Proof.
  split; [|reflexivity].
  assert (Hcalls : Forall (fun node => node_type node = "function_call")
                     (findNodesByType root "function_call")).
  { unfold findNodesByType. rewrite findNodes_filter.
    apply List.Forall_forall. intros node Hin.
    apply List.filter_In in Hin as [_ H]. now apply String.eqb_eq. }
  unfold findFunctionCalls. destruct functionName as [wanted|].
  - destruct (String.eqb_spec wanted "") as [->|Hne]; simpl.
    + eapply List.Forall_impl; [|exact Hcalls]. intros node H. auto.
    + apply List.Forall_forall. intros node Hin.
      apply List.filter_In in Hin as [Hin H].
      split.
      * rewrite List.Forall_forall in Hcalls. now apply Hcalls.
      * right. destruct (node_name node) as [n|]; [|discriminate].
        apply String.eqb_eq in H. now subst.
  - eapply List.Forall_impl; [|exact Hcalls]. intros node H. auto.
Qed.

(** X20. The two functions that flatten a node to its text,
    [ASTUtils.getTextContent] and the [getTextFromNode] of the standard
    library, give the same text for every node; and the text of a
    container is the texts of its children in a row, so that of a
    paragraph is that of its children put together. *)
Theorem text_of_a_node (node : ASTNode) (children more : list ASTNode)
  (loc : option SourceLocation) :
  getTextContent node = getTextFromNode node
  /\ getTextFromNode (ParagraphNode (children ++ more) loc)
     = getTextFromNode (ParagraphNode children loc)
       +:+ getTextFromNode (ParagraphNode more loc).
Proof.
  split; [apply getTextContent_getTextFromNode|].
  simpl. induction children as [|child rest IH]; [reflexivity|].
  simpl. rewrite IH. first [apply append_assoc|symmetry; apply append_assoc].
Qed.

End Search.

(** ** The execution context, continued *)

Section Contexts.
Context {rt : JSRuntime} {host : Host}.

Lemma copy_entries_lookup {V} (from into : gmap string V) (key : string) :
  copy_entries from into !! key
  = match from !! key with
    | Some value => Some value
    | None => into !! key
    end.
Proof.
  unfold copy_entries.
  apply (map_fold_weak_ind
           (fun (r : gmap string V) (m : gmap string V) =>
              r !! key = match m !! key with
                         | Some value => Some value
                         | None => into !! key
                         end)).
  - rewrite lookup_empty. reflexivity.
  - intros i x m r Hm IH.
    destruct (decide (i = key)) as [->|Hne].
    + rewrite !lookup_insert_eq. reflexivity.
    + rewrite !lookup_insert_ne by exact Hne. exact IH.
Qed.

Lemma copy_entries_empty {V} (from : gmap string V) :
  copy_entries from ∅ = from.
Proof.
  apply map_eq. intros key. rewrite copy_entries_lookup, lookup_empty.
  destruct (from !! key); reflexivity.
Qed.

(** X21. The clone of a context has the metadata, the user-defined
    functions, the warnings and the options of the context, and its
    variables on top of the built-in ones of a new context: a built-in
    variable that was deleted is there again. The scopes and the named
    arguments are not copied; the clone has none. *)
Theorem clone_copies_all_but_scopes (ctx : ExecutionContext) :
  (forall name,
      variables (clone ctx) !! name
      = match variables ctx !! name with
        | Some value => Some value
        | None => variables (new_ExecutionContext (options ctx)) !! name
        end)
  /\ metadata (clone ctx) = metadata ctx
  /\ userFunctions (clone ctx) = userFunctions ctx
  /\ warnings (clone ctx) = warnings ctx
  /\ options (clone ctx) = options ctx
  /\ scopeStack (clone ctx) = []
  /\ namedArgs (clone ctx) = [].
Proof.
  unfold clone. cbn -[copy_entries initializeBuiltinVariables].
  repeat split.
  - intros name. apply copy_entries_lookup.
  - apply copy_entries_empty.
  - apply copy_entries_empty.
Qed.

(** X22. After [deleteVariable] the variable is gone from the global
    variables: when the current scope does not bind the name, the context
    has the variable no more, its value is undefined, and a reference to
    it expands to the name in braces with a warning. The other global
    variables are as before. *)
Theorem deleted_variable_is_undefined (name : string)
  (ctx : ExecutionContext) :
  not_shadowed name ctx ->
  hasVariable name (deleteVariable name ctx) = false
  /\ getVariable name (deleteVariable name ctx) = VUndefined
  /\ resolveVariable name (deleteVariable name ctx)
     = (Normal (TextNode ("{{" +:+ name +:+ "}}") None),
        addWarning (undefined_variable_warning name)
          (deleteVariable name ctx))
  /\ forall other, other <> name ->
       variables (deleteVariable name ctx) !! other = variables ctx !! other.
Proof.
  intros Hscope.
  assert (Hget : getVariable name (deleteVariable name ctx) = VUndefined).
  { unfold getVariable, deleteVariable, not_shadowed, map_has, map_get in *.
    cbn. destruct (last (scopeStack ctx)) as [scope|].
    - rewrite Hscope, lookup_delete_eq. reflexivity.
    - rewrite lookup_delete_eq. reflexivity. }
  repeat split.
  - unfold hasVariable, deleteVariable, not_shadowed, map_has in *.
    cbn. destruct (last (scopeStack ctx)) as [scope|].
    + rewrite Hscope, lookup_delete_eq. reflexivity.
    + rewrite lookup_delete_eq. reflexivity.
  - exact Hget.
  - unfold resolveVariable, ebind, eread, eupdate, eret. rewrite Hget.
    reflexivity.
  - intros other Hne. unfold deleteVariable. cbn.
    apply lookup_delete_ne. congruence.
Qed.

Lemma substring_prefix (a b : string) :
  substring 0 (String.length a) (a +:+ b) = a.
Proof.
  induction a as [|c a IH].
  - rewrite append_nil_l. destruct b; reflexivity.
  - rewrite append_cons. simpl. now f_equal.
Qed.

(** X23. [evaluateExpression] on a text in double quotes that does not
    start as a number gives the text between the quotes; and on an
    expression that does not start with a dot it never gives undefined,
    while on one that does it gives the variable named after the dot. *)
Theorem evaluateExpression_literals (text expression : string)
  (ctx : ExecutionContext) :
  isNaN (parseFloat (dq +:+ text +:+ dq)) = true ->
  evaluateExpression (dq +:+ text +:+ dq) ctx = VString text
  /\ (if startsWith "." expression
      then evaluateExpression expression ctx
           = getVariable (slice_from 1 expression) ctx
      else evaluateExpression expression ctx <> VUndefined).
Proof.
  intros Hnan. split.
  - unfold evaluateExpression.
    change (startsWith "." (dq +:+ text +:+ dq)) with false.
    cbv iota. rewrite Hnan. cbn [negb].
    change (String.eqb (dq +:+ text +:+ dq) "true") with false.
    change (String.eqb (dq +:+ text +:+ dq) "false") with false.
    cbv iota.
    assert (Hstart : startsWith dq (dq +:+ text +:+ dq) = true).
    { unfold dq. rewrite append_cons, append_nil_l. unfold startsWith.
      simpl. reflexivity. }
    assert (Hend : endsWith dq (dq +:+ text +:+ dq) = true).
    { unfold endsWith. rewrite !length_append.
      change (String.length dq) with 1.
      replace (1 + (String.length text + 1) - 1)
        with (1 + String.length text) by lia.
      replace (1 <=? 1 + (String.length text + 1))%nat with true
        by (symmetry; apply Nat.leb_le; lia).
      rewrite <- append_assoc.
      replace (1 + String.length text)
        with (String.length (dq +:+ text))
        by (rewrite length_append; change (String.length dq) with 1; lia).
      rewrite slice_from_append. reflexivity. }
    rewrite Hstart, Hend. cbn [andb]. f_equal.
    unfold slice. rewrite !length_append.
    change (String.length dq) with 1.
    replace (1 + (String.length text + 1) - 1 - 1)
      with (String.length text) by lia.
    unfold dq at 1. rewrite append_cons, append_nil_l.
    cbn [substring]. apply substring_prefix.
  - unfold evaluateExpression.
    destruct (startsWith "." expression); [reflexivity|].
    destruct (negb (isNaN (parseFloat expression))); [discriminate|].
    repeat match goal with
           | |- context [if ?c then _ else _] => destruct c
           end; discriminate.
Qed.

End Contexts.

(** ** The leaves of the renderer *)

Section RendererLeaves.
Import Renderer.

(** X24. Without a global [document], as in the extension host of the
    editor, the renderers of text, code and mathematics throw a reference
    error on every node, and so does the renderer of images; with one,
    each of the four returns. *)
Theorem leaf_renderers_need_a_document (content src : string)
  (language alt title width height : option string) (inline : bool)
  (innerHTML : string -> string) :
  let missing := Throw (ReferenceError "document is not defined") in
  renderText None content = missing
  /\ renderCode None content language inline = missing
  /\ renderMath None content inline = missing
  /\ renderImage None src alt title width height = missing
  /\ (exists html, renderText (Some innerHTML) content = Normal html)
  /\ (exists html,
        renderCode (Some innerHTML) content language inline = Normal html)
  /\ (exists html, renderMath (Some innerHTML) content inline = Normal html)
  /\ (exists html,
        renderImage (Some innerHTML) src alt title width height
        = Normal html).
Proof.
  cbv zeta. repeat split; try reflexivity.
  - unfold renderImage, escaped_attribute, escapeHtml.
    destruct (truthy alt); [reflexivity|].
    destruct (truthy title); reflexivity.
  - eexists; reflexivity.
  - unfold renderCode, escapeHtml. cbn [obind].
    destruct inline; eexists; reflexivity.
  - eexists; reflexivity.
  - unfold renderImage, escaped_attribute, escapeHtml.
    destruct (truthy alt), (truthy title); cbn [obind];
      eexists; reflexivity.
Qed.

End RendererLeaves.

(** ** The properties at inputs *)

Section AtInputs.
Import SafeIntegers Examples.

(** A definition of [greet] and its call, in the context of a fresh
    compilation. *)
Lemma defined_function_returns_its_body_witness :
  stdlib_hasFunction "greet" = false
  /\ executeNodes 1
       [FunctionCallNode "function" [text "greet"] [] [text "Hello"] None;
        FunctionCallNode "greet" [text "ignored"] [] [] None] [] fresh
     = (Normal [text "Hello"],
        defineFunction "greet" [] [text "Hello"] None fresh).
Proof.
  assert (H : stdlib_hasFunction "greet" = false) by reflexivity.
  split; [exact H|].
  exact (@defined_function_returns_its_body _ _ 1 (text "greet") []
           [text "Hello"] [text "ignored"] [] [] [] None None fresh H).
Defined.

(** [.repeat {3}] on a body of one text node. *)
Lemma repeat_emits_counted_copies_witness :
  (forall i, (i <= 3)%nat ->
     num_ltb (num_of_nat i)
       (num_or (if isNaN (parseFloat "3") then None
                else Some (parseFloat "3")) num_one)
     = (i <? 3)%nat)
  /\ repeat_ 4 [text "3"] [text "x"] fresh
     = (Normal (RNodes [text "x"; text "x"; text "x"]),
        setVariable "_index" (VNumber (num_of_nat 2)) fresh).
Proof.
  assert (H : forall i, (i <= 3)%nat ->
     num_ltb (num_of_nat i)
       (num_or (if isNaN (parseFloat "3") then None
                else Some (parseFloat "3")) num_one)
     = (i <? 3)%nat).
  { intros i Hi. destruct i as [|[|[|[|i]]]]; try reflexivity. lia. }
  split; [exact H|].
  exact (@repeat_emits_counted_copies _ 3 4 (text "3") [] [text "x"] fresh H
           ltac:(lia)).
Defined.

(** A tokenizer that throws, with and without the strict option. *)
Lemma parse_failure_and_strict_mode_witness :
  let failing := host_with md_throws render_without_dom in
  let strict :=
    {| opt_doctype := None; opt_theme := None; opt_outputFormat := None;
       opt_strict := Some true; opt_includePaths := None |} in
  fst (Parser.parse_try md_throws "# Title" [])
  = inl (Error "Rule not found: text")
  /\ (exists result,
        compile (host := failing) 0 "# Title" strict = Some result
        /\ cr_html result = ""
        /\ List.map ce_type (cr_errors result) = [ce_syntax])
  /\ (exists result,
        compile (host := failing) 0 "# Title" no_options = Some result
        /\ List.map ce_type (cr_errors result) = [ce_syntax; ce_runtime]).
Proof.
  intros failing strict.
  assert (H : fst (Parser.parse_try md_throws "# Title" [])
              = inl (Error "Rule not found: text"))
    by reflexivity.
  split; [exact H|]. split.
  - eexists. split;
      [exact (@parse_failure_and_strict_mode _ failing 0 "# Title" strict
                _ H)|].
    split; reflexivity.
  - eexists. split;
      [exact (@parse_failure_and_strict_mode _ failing 0 "# Title" no_options
                _ H)|].
    reflexivity.
Defined.

(** A heading and a sentence without a dot. *)
Lemma preprocess_leaves_plain_text_witness :
  Forall (fun c => c <> "."%char /\ c <> ">"%char)
    (list_ascii_of_string "# A title")
  /\ Parser.preprocessQuarkdownSyntax "# A title" = "# A title".
Proof.
  assert (H : Forall (fun c => c <> "."%char /\ c <> ">"%char)
                (list_ascii_of_string "# A title")).
  { simpl. repeat constructor; discriminate. }
  split; [exact H|].
  exact (@preprocess_leaves_plain_text _ "# A title" H).
Defined.

(** [.add {5} to:{3}] *)
Lemma call_with_braces_becomes_marker_witness :
  JSString.match_identifier "add" = Some "add"
  /\ JSString.take_while JSString.is_space " " = " "
  /\ JSString.take_while (fun c => negb (Ascii.eqb c "}")) "5" = "5"
  /\ Parser.preprocessFunctionCalls ".add {5} to:{3}"
     = "{{FUNCTION:add:5}} to:{3}".
Proof.
  split; [reflexivity|]. split; [reflexivity|]. split; [reflexivity|].
  exact (@call_with_braces_becomes_marker "add" " " "5" " to:{3}"
           ltac:(reflexivity) ltac:(reflexivity) ltac:(reflexivity)).
Defined.

(** The built-in variable [pi], deleted in the context of a fresh
    compilation. *)
Lemma deleted_variable_is_undefined_witness :
  not_shadowed "pi" fresh
  /\ hasVariable "pi" fresh = true
  /\ hasVariable "pi" (deleteVariable "pi" fresh) = false
  /\ fst (resolveVariable "pi" (deleteVariable "pi" fresh))
     = Normal (text "{{pi}}").
Proof.
  assert (H : not_shadowed "pi" fresh) by exact I.
  split; [exact H|]. split; [reflexivity|].
  pose proof (@deleted_variable_is_undefined _ "pi" fresh H)
    as (Hhas & _ & Hresolve & _).
  split; [exact Hhas|]. rewrite Hresolve. reflexivity.
Defined.

(** The literal [hello] in double quotes. *)
Lemma evaluateExpression_literals_witness :
  isNaN (parseFloat (dq +:+ "hello" +:+ dq)) = true
  /\ evaluateExpression (dq +:+ "hello" +:+ dq) fresh = VString "hello"
  /\ evaluateExpression "hello" fresh <> VUndefined.
Proof.
  assert (H : isNaN (parseFloat (dq +:+ "hello" +:+ dq)) = true)
    by reflexivity.
  split; [exact H|].
  pose proof (@evaluateExpression_literals _ "hello" "hello" fresh H)
    as [Hquoted Hplain].
  split; [exact Hquoted|exact Hplain].
Defined.

End AtInputs.
